(** * Agent-Canvas workflow editor: the in-memory graph editing engine

    A shallow embedding of [static/script.js]: the workflow data model, the
    node handlers of the editor (add, delete, rename), the state effects of
    the re-rendering pass, the projection of the graph into Mermaid text,
    and the debounced autosave scheduler with its timers.

    Conventions of the embedding.
    - A JavaScript string is a [string]; [===] on strings is decidable
      equality.
    - The [prompts] and [scripts] objects are finite maps from node id to
      text ([gmap string string]); [obj[k] !== undefined] is [is_Some (m !! k)].
      Keys inherited from [Object.prototype] are outside the model.
    - An array is a list; [arr[i]] is list lookup, which is [None] where
      JavaScript yields [undefined].
    - [state.selectedPrompt] is [null] or a string: [option string].
    - Time is a count of milliseconds ([N]); timers fire at their due time. *)

From Stdlib Require Import Ascii String NArith.
From stdpp Require Import gmap strings list fin_maps pretty.

#[local] Open Scope string_scope.
#[local] Open Scope N_scope.
#[local] Open Scope list_scope.

(** ** Characters that cannot be written inside a literal *)

Definition dquote : string := String (ascii_of_nat 34) EmptyString.
Definition newline : string := String (ascii_of_nat 10) EmptyString.

(** ** Data model *)

Record Node := mkNode {
  node_id : string;          (* node.id *)
  node_type : string;        (* node.type: 'llm', 'python', 'join' *)
  node_output_key : string   (* node.output_key *)
}.

Record Edge := mkEdge {
  edge_source : string;      (* edge.source *)
  edge_target : string;      (* edge.target, '__end__' for the sentinel *)
  edge_conditional : bool    (* edge.conditional *)
}.

Record Config := mkConfig {
  entry_point : string;
  final_output_key : string;
  nodes : list Node;
  edges : list Edge
}.

Record Workflow := mkWorkflow {
  wf_id : string;
  wf_name : string;
  config : Config;
  prompts : gmap string string;
  scripts : gmap string string
}.

(** The global [state] object (the list of workflow summaries plays no part
    in the editing engine and is left out). *)
Record State := mkState {
  currentWorkflow : option Workflow;
  selectedPrompt : option string
}.

Definition END_SENTINEL : string := "__end__".

Definition node_ids (wf : Workflow) : list string :=
  map node_id (nodes (config wf)).

(** ** Node handlers: the mutations of the model *)

Module GraphModel.

(** [if (x === oldId) x = newId] *)
Definition rebind (oldId newId x : string) : string :=
  if decide (x = oldId) then newId else x.

Definition rename_edge (oldId newId : string) (e : Edge) : Edge :=
  {| edge_source := rebind oldId newId (edge_source e);
     edge_target := rebind oldId newId (edge_target e);
     edge_conditional := edge_conditional e |}.

(** [if (m[oldId] !== undefined) { m[newId] = m[oldId]; delete m[oldId]; }] *)
Definition move_key (oldId newId : string) (m : gmap string string)
  : gmap string string :=
  match m !! oldId with
  | Some text => delete oldId (<[newId := text]> m)
  | None => m
  end.

Definition set_node_id (n : Node) (newId : string) : Node :=
  {| node_id := newId; node_type := node_type n;
     node_output_key := node_output_key n |}.

Definition set_node_type (n : Node) (t : string) : Node :=
  {| node_id := node_id n; node_type := t;
     node_output_key := node_output_key n |}.

Definition set_node_output_key (n : Node) (k : string) : Node :=
  {| node_id := node_id n; node_type := node_type n; node_output_key := k |}.

Definition with_nodes (wf : Workflow) (ns : list Node) : Workflow :=
  {| wf_id := wf_id wf; wf_name := wf_name wf;
     config := {| entry_point := entry_point (config wf);
                  final_output_key := final_output_key (config wf);
                  nodes := ns; edges := edges (config wf) |};
     prompts := prompts wf; scripts := scripts wf |}.

(** The node-id branch of the [nodesList] change handler, from
    [const oldId = node.id] to the rewrite of [state.selectedPrompt]:
    the node at [index] gets [newId], and every reference to its old id
    follows. *)
Definition renameNode (index : nat) (newId : string)
    (wf : Workflow) (sel : option string) : Workflow * option string :=
  match nodes (config wf) !! index with
  | None => (wf, sel)
  | Some node =>
      let oldId := node_id node in
      ({| wf_id := wf_id wf; wf_name := wf_name wf;
          config :=
            {| entry_point := rebind oldId newId (entry_point (config wf));
               final_output_key := final_output_key (config wf);
               nodes := <[index := set_node_id node newId]> (nodes (config wf));
               edges := map (rename_edge oldId newId) (edges (config wf)) |};
          prompts := move_key oldId newId (prompts wf);
          scripts := move_key oldId newId (scripts wf) |},
       if decide (sel = Some oldId) then Some newId else sel)
  end.

(** The delete branch of the [nodesList] click handler, from the [splice]
    to the reset of [state.selectedPrompt].  [entry_point] is not written. *)
Definition removeNode (index : nat)
    (wf : Workflow) (sel : option string) : Workflow * option string :=
  match nodes (config wf) !! index with
  | None => (wf, sel)
  | Some node =>
      let A := node_id node in
      ({| wf_id := wf_id wf; wf_name := wf_name wf;
          config :=
            {| entry_point := entry_point (config wf);
               final_output_key := final_output_key (config wf);
               nodes := delete index (nodes (config wf));
               edges := filter (fun e => edge_source e ≠ A ∧ edge_target e ≠ A)
                               (edges (config wf)) |};
          prompts := delete A (prompts wf);
          scripts := delete A (scripts wf) |},
       if decide (sel = Some A) then None else sel)
  end.

(** What a move from [oldId], holding [t], onto the occupied key [newId],
    holding [t'], leaves of the map [m] in [m']: one entry instead of two,
    the text of [oldId] under [newId], and [t'] nowhere it was not besides. *)
Definition overwritten (oldId newId t t' : string)
    (m m' : gmap string string) : Prop :=
  m' !! newId = Some t
  ∧ m' !! oldId = None
  ∧ (∀ k, k ≠ oldId → k ≠ newId → m' !! k = m !! k)
  ∧ size m' = (size m - 1)%nat
  ∧ (∀ k, m' !! k = Some t' → t' = t ∨ (k ≠ newId ∧ m !! k = Some t')).

(** [`node_${Date.now()}`] *)
Definition newNodeId (t : N) : string := "node_" +:+ pretty t.

(** The add-node click handler up to the [push]. *)
Definition addNode (t : N) (wf : Workflow) : Workflow :=
  with_nodes wf (nodes (config wf) ++ [mkNode (newNodeId t) "llm" ""]).

End GraphModel.

(** ** The state effects of re-rendering

    Of the functions run by [renderAll] only [renderEditor] writes to the
    model: it creates the missing prompt or script of every editable node
    and repairs [state.selectedPrompt]. *)

Module SelectionValidator.

Definition default_script : string :=
  "def main(state):" +:+ newline +:+ newline
  +:+ "  result = f" +:+ dquote
  +:+ "Hello from Python: {state.get('input', 'no input')}" +:+ dquote
  +:+ newline +:+ newline +:+ "  return result" +:+ newline.

Definition editable (n : Node) : bool :=
  bool_decide (node_type n = "llm") || bool_decide (node_type n = "python").

(** The body of [editableNodes.forEach] as far as it writes to the maps. *)
Definition ensure_text (ps : gmap string string * gmap string string)
    (n : Node) : gmap string string * gmap string string :=
  if bool_decide (node_type n = "llm") && bool_decide (ps.1 !! node_id n = None)
  then (<[node_id n := ""]> ps.1, ps.2)
  else if bool_decide (node_type n = "python")
          && bool_decide (ps.2 !! node_id n = None)
  then (ps.1, <[node_id n := default_script]> ps.2)
  else ps.

(** [!state.selectedPrompt]: [null] and the empty string are falsy. *)
Definition falsy (sel : option string) : bool :=
  match sel with
  | None => true
  | Some s => bool_decide (s = "")
  end.

Definition renderEditor (wf : Workflow) (sel : option string)
  : Workflow * option string :=
  match filter (fun n => editable n = true) (nodes (config wf)) with
  | [] => (wf, sel)
  | first :: rest =>
      let editableNodes := first :: rest in
      let ps := foldl ensure_text (prompts wf, scripts wf) editableNodes in
      ({| wf_id := wf_id wf; wf_name := wf_name wf; config := config wf;
          prompts := ps.1; scripts := ps.2 |},
       if falsy sel
          || negb (existsb (fun n => bool_decide (Some (node_id n) = sel))
                           editableNodes)
       then Some (node_id first) else sel)
  end.

(** [renderAll]: nothing without a current workflow; otherwise the effects
    of [renderEditor] (the other renderers only write to the page). *)
Definition renderAll (st : State) : State :=
  match currentWorkflow st with
  | None => st
  | Some wf =>
      let r := renderEditor wf (selectedPrompt st) in
      {| currentWorkflow := Some r.1; selectedPrompt := r.2 |}
  end.

End SelectionValidator.

(** ** The autosave scheduler and the timers of the page

    The page is single threaded: a handler runs to its end (or to its first
    [await]) before anything else happens.  The world below holds what the
    handlers share: the model, the clock, the pending timers of
    [setTimeout], the [timeout] variable captured by [debouncedSave], the
    save-status element, and the PUT requests sent so far. *)

Module Autosave.

Inductive color := SecondaryColor | SuccessColor | DangerColor.

#[global] Instance color_eq_dec : EqDecision color.
Proof. solve_decision. Defined.

(** The two functions that the script hands to [setTimeout]. *)
Inductive callback :=
  | Later        (* [later], built by [debounce] around [saveWorkflow] *)
  | ClearStatus. (* the arrow function at the end of [saveWorkflow] *)

#[global] Instance callback_eq_dec : EqDecision callback.
Proof. solve_decision. Defined.

Record Timer := mkTimer {
  handle : nat;
  due : N;
  action : callback
}.

(** What the script passes to [clearTimeout]: the [timeout] variable, which
    is [undefined] or a handle, and in [saveWorkflow] the function
    [debouncedSave] itself. *)
Inductive js_value := JUndefined | JNumber (h : nat) | JFunction.

#[global] Instance js_value_eq_dec : EqDecision js_value.
Proof. solve_decision. Defined.

(** How a PUT request ends. *)
Inductive response := Ok | Failed (message : string).

Record World := mkWorld {
  state : State;
  name_input : string;            (* workflowNameInput.value *)
  now : N;                        (* Date.now() *)
  next_handle : nat;              (* the handle the next setTimeout returns *)
  timers : list Timer;            (* pending timers, oldest first *)
  timeout : js_value;             (* [let timeout] inside [debounce] *)
  status : string * color;        (* textContent and style.color *)
  requests : list N;              (* the times at which a PUT was sent *)
  in_flight : nat                 (* PUT requests not yet settled *)
}.

Definition set_state (s : State) (w : World) : World :=
  mkWorld s (name_input w) (now w) (next_handle w) (timers w) (timeout w)
          (status w) (requests w) (in_flight w).

Definition set_now (t : N) (w : World) : World :=
  mkWorld (state w) (name_input w) t (next_handle w) (timers w) (timeout w)
          (status w) (requests w) (in_flight w).

Definition set_timers (l : list Timer) (w : World) : World :=
  mkWorld (state w) (name_input w) (now w) (next_handle w) l (timeout w)
          (status w) (requests w) (in_flight w).

Definition set_timeout (v : js_value) (w : World) : World :=
  mkWorld (state w) (name_input w) (now w) (next_handle w) (timers w) v
          (status w) (requests w) (in_flight w).

(** [updateSaveStatus(status, color)]; the status element exists. *)
Definition updateSaveStatus (text : string) (c : color) (w : World) : World :=
  mkWorld (state w) (name_input w) (now w) (next_handle w) (timers w)
          (timeout w) (text, c) (requests w) (in_flight w).

(** [setTimeout(cb, wait)]: the new world and the handle returned. *)
Definition setTimeout (cb : callback) (wait : N) (w : World) : World * nat :=
  (mkWorld (state w) (name_input w) (now w) (S (next_handle w))
           (timers w ++ [mkTimer (next_handle w) (now w + wait) cb])
           (timeout w) (status w) (requests w) (in_flight w),
   next_handle w).

(** [clearTimeout(v)]: a value that is no handle names no timer. *)
Definition clearTimeout (v : js_value) (w : World) : World :=
  match v with
  | JNumber h => set_timers (filter (fun tm => handle tm ≠ h) (timers w)) w
  | JUndefined | JFunction => w
  end.

Definition DEBOUNCE_WAIT : N := 2000.
Definition STATUS_CLEAR_WAIT : N := 4000.

Definition MSG_CHANGED : string := "変更あり（自動保存されます）".
Definition MSG_SAVING : string := "保存中...".
Definition MSG_SAVED : string := "保存しました！".
Definition MSG_FAILED (message : string) : string := "保存失敗: " +:+ message.

(** [saveWorkflow] up to its [await]: the guard, the [clearTimeout] whose
    argument is the function [debouncedSave], the status, the name, and the
    PUT request. *)
Definition saveWorkflow (w : World) : World :=
  match currentWorkflow (state w) with
  | None => w
  | Some wf =>
      if bool_decide (wf_id wf = "") then w
      else
        let w1 := clearTimeout JFunction w in
        let w2 := updateSaveStatus MSG_SAVING SecondaryColor w1 in
        let wf' := {| wf_id := wf_id wf; wf_name := name_input w2;
                      config := config wf; prompts := prompts wf;
                      scripts := scripts wf |} in
        mkWorld {| currentWorkflow := Some wf';
                   selectedPrompt := selectedPrompt (state w2) |}
                (name_input w2) (now w2) (next_handle w2) (timers w2)
                (timeout w2) (status w2) (requests w2 ++ [now w2])
                (S (in_flight w2))
  end.

(** [saveWorkflow] after its [await]: the status of the outcome, then the
    timer that clears the status four seconds later. *)
Definition saveWorkflow_settled (r : response) (w : World) : World :=
  match in_flight w with
  | O => w
  | S k =>
      let w1 := mkWorld (state w) (name_input w) (now w) (next_handle w)
                        (timers w) (timeout w) (status w) (requests w) k in
      let w2 := match r with
                | Ok => updateSaveStatus MSG_SAVED SuccessColor w1
                | Failed m => updateSaveStatus (MSG_FAILED m) DangerColor w1
                end in
      (setTimeout ClearStatus STATUS_CLEAR_WAIT w2).1
  end.

(** The arrow function of the status timer. *)
Definition clear_status (w : World) : World :=
  if bool_decide (snd (status w) ≠ DangerColor)
  then updateSaveStatus "" SecondaryColor w
  else w.

(** [later], with [func = () => saveWorkflow()]. *)
Definition later (w : World) : World :=
  saveWorkflow (clearTimeout (timeout w) w).

(** [debouncedSave()], the function returned by [debounce]. *)
Definition debouncedSave (w : World) : World :=
  let w1 := clearTimeout (timeout w) w in
  let r := setTimeout Later DEBOUNCE_WAIT w1 in
  set_timeout (JNumber r.2) r.1.

Definition handleStateChange (w : World) : World :=
  match currentWorkflow (state w) with
  | None => w
  | Some _ => debouncedSave (updateSaveStatus MSG_CHANGED SecondaryColor w)
  end.

(** *** The event loop: firing the timers that are due *)

Definition run_callback (cb : callback) (w : World) : World :=
  match cb with
  | Later => later w
  | ClearStatus => clear_status w
  end.

(** A timer fires at its due time: it leaves the pending list, the clock
    shows its due time, its callback runs. *)
Definition fire (tm : Timer) (w : World) : World :=
  run_callback (action tm)
    (set_now (N.max (now w) (due tm))
       (set_timers (filter (fun x => handle x ≠ handle tm) (timers w)) w)).

(** Timers fire in the order of their due times, the older one first
    where two are due together. *)
Definition before (a b : Timer) : bool :=
  (due a <? due b) || ((due a =? due b) && (handle a <=? handle b)%nat).

Fixpoint earliest (l : list Timer) : option Timer :=
  match l with
  | [] => None
  | tm :: rest =>
      match earliest rest with
      | None => Some tm
      | Some m => Some (if before tm m then tm else m)
      end
  end.

Definition next_due (T : N) (l : list Timer) : option Timer :=
  earliest (filter (fun tm => due tm <= T) l).

Fixpoint run_timers (fuel : nat) (T : N) (w : World) : World :=
  match fuel with
  | O => w
  | S k =>
      match next_due T (timers w) with
      | None => w
      | Some tm => run_timers k T (fire tm w)
      end
  end.

(** Time passes until [T]: every timer due by then fires.  No callback of
    this script starts a timer, so the pending timers bound the loop. *)
Definition advance (T : N) (w : World) : World :=
  let w' := run_timers (length (timers w)) T w in
  set_now (N.max (now w') T) w'.

(** *** Vocabulary for the properties of the scheduler *)

(** A change signal at time [t]: time passes until [t], then
    [handleStateChange] runs. *)
Definition signal (t : N) (w : World) : World :=
  handleStateChange (advance t w).

Definition signals (ts : list N) (w : World) : World :=
  foldl (fun w t => signal t w) w ts.

(** The time of the last signal of [t :: ts]. *)
Definition last_of (t : N) (ts : list N) : N := default t (last ts).

(** The pending timers of the debounced save. *)
Definition pending_saves (w : World) : list Timer :=
  filter (fun tm => action tm = Later) (timers w).

(** Each signal of [ts] comes less than the debounce window after the one
    before it, the first of them after [t]. *)
Fixpoint within_window (t : N) (ts : list N) : Prop :=
  match ts with
  | [] => True
  | t' :: rest => t <= t' ∧ t' < t + DEBOUNCE_WAIT ∧ within_window t' rest
  end.

(** A workflow is current and has an id: the guard of [saveWorkflow]. *)
Definition loaded (w : World) : Prop :=
  ∃ wf, currentWorkflow (state w) = Some wf ∧ wf_id wf ≠ "".

(** [setTimeout] never returns a handle twice. *)
Definition handles_fresh (w : World) : Prop :=
  NoDup (map handle (timers w))
  ∧ Forall (fun tm => (handle tm < next_handle w)%nat) (timers w).

End Autosave.

(** ** The handlers as the page runs them

    Each handler mutates the model, re-renders, and signals the change to
    the scheduler.  A handler that reads a property of
    [state.currentWorkflow] while it is [null] throws a [TypeError]. *)

Module Editor.
Import GraphModel SelectionValidator Autosave.

Inductive outcome := Done (w : World) | TypeError.

Definition render_all (w : World) : World :=
  set_state (renderAll (state w)) w.

(** The click handler of [add-node-btn]. *)
Definition add_node_click (w : World) : outcome :=
  match currentWorkflow (state w) with
  | None => TypeError
  | Some wf =>
      let s := {| currentWorkflow := Some (addNode (now w) wf);
                  selectedPrompt := selectedPrompt (state w) |} in
      Done (handleStateChange (render_all (set_state s w)))
  end.

(** The click handler of [nodesList], on the delete button of row [index]. *)
Definition delete_node_click (index : nat) (w : World) : outcome :=
  match currentWorkflow (state w) with
  | None => TypeError
  | Some wf =>
      match nodes (config wf) !! index with
      | None => Done w
      | Some _ =>
          let r := removeNode index wf (selectedPrompt (state w)) in
          let s := {| currentWorkflow := Some r.1; selectedPrompt := r.2 |} in
          Done (handleStateChange (render_all (set_state s w)))
      end
  end.

(** The three inputs of a node row. *)
Inductive node_field := NodeIdInput | NodeTypeSelect | NodeOutputKeyInput.

(** The change handler of [nodesList], on [field] of row [index] holding
    [value]. *)
Definition nodes_list_change (field : node_field) (index : nat)
    (value : string) (w : World) : outcome :=
  match currentWorkflow (state w) with
  | None => TypeError
  | Some wf =>
      match nodes (config wf) !! index with
      | None => Done w
      | Some node =>
          let sel := selectedPrompt (state w) in
          let w1 :=
            match field with
            | NodeIdInput =>
                let r := renameNode index value wf sel in
                render_all
                  (set_state {| currentWorkflow := Some r.1;
                                selectedPrompt := r.2 |} w)
            | NodeTypeSelect =>
                let wf' := with_nodes wf (<[index := set_node_type node value]>
                                            (nodes (config wf))) in
                render_all
                  (set_state {| currentWorkflow := Some wf';
                                selectedPrompt := sel |} w)
            | NodeOutputKeyInput =>
                let wf' := with_nodes wf
                             (<[index := set_node_output_key node value]>
                                (nodes (config wf))) in
                set_state {| currentWorkflow := Some wf';
                             selectedPrompt := sel |} w
            end in
          Done (handleStateChange w1)
      end
  end.

(** The workflow a handler leaves behind. *)
Definition workflow_of (o : outcome) : option Workflow :=
  match o with
  | Done w => currentWorkflow (state w)
  | TypeError => None
  end.

End Editor.

(** ** The projection of the graph into Mermaid text *)

Module DiagramProjector.

Definition is_dquote (c : ascii) : bool := bool_decide (c = ascii_of_nat 34).

(** [s.replace] of every double quote (the pattern has the [g] flag) by
    ['#quot;']. *)
Fixpoint escape_quotes (s : string) : string :=
  match s with
  | EmptyString => EmptyString
  | String c rest =>
      if is_dquote c then "#quot;" +:+ escape_quotes rest
      else String c (escape_quotes rest)
  end.

(** A raw double quote occurs in [s]. *)
Fixpoint has_dquote (s : string) : bool :=
  match s with
  | EmptyString => false
  | String c rest => is_dquote c || has_dquote rest
  end.

(** The three kinds of line that [renderGraph] pushes. *)
Inductive statement :=
  | Shape (nodeId : string) (diamond : bool) (label : string)
  | Style (target : string) (css : string)
  | Connector (source : string) (arrow : string) (target : string).

Definition render (s : statement) : string :=
  match s with
  | Shape nodeId false label =>
      "  " +:+ nodeId +:+ "[" +:+ dquote +:+ label +:+ dquote +:+ "]"
  | Shape nodeId true label =>
      "  " +:+ nodeId +:+ "{" +:+ dquote +:+ label +:+ dquote +:+ "}"
  | Style target css => "  style " +:+ target +:+ " " +:+ css
  | Connector source arrow target =>
      "  " +:+ source +:+ " " +:+ arrow +:+ " " +:+ target
  end.

Definition PYTHON_STYLE : string :=
  "fill:#fff0e6,stroke:#ff9933,stroke-width:2px".
Definition ENTRY_STYLE : string :=
  "fill:#e9f7ef,stroke:#27ae60,stroke-width:2px".

Definition nodeLabel (n : Node) : string :=
  node_id n +:+ "<br/><i>(" +:+ node_type n +:+ ")</i>".

(** The body of [config.nodes.forEach]. *)
Definition node_statements (n : Node) : list statement :=
  let nodeId := escape_quotes (node_id n) in
  if bool_decide (node_type n = "python")
  then [Shape nodeId false (nodeLabel n); Style nodeId PYTHON_STYLE]
  else if bool_decide (node_type n = "join")
  then [Shape nodeId true (nodeLabel n)]
  else [Shape nodeId false (nodeLabel n)].

(** [if (config.entry_point) graphDefinition.push(...)] *)
Definition entry_statements (cfg : Config) : list statement :=
  if bool_decide (entry_point cfg = "") then []
  else [Style (entry_point cfg) ENTRY_STYLE].

(** The body of [config.edges.forEach]. *)
Definition edge_statement (e : Edge) : statement :=
  Connector (escape_quotes (edge_source e))
            (if edge_conditional e then "-- 条件分岐 -->" else "-->")
            (escape_quotes (edge_target e)).

Definition statements (cfg : Config) : list statement :=
  flat_map node_statements (nodes cfg)
  ++ entry_statements cfg
  ++ map edge_statement (edges cfg).

Definition graphDefinition (cfg : Config) : list string :=
  "graph TD" :: map render (statements cfg).

(** What [renderGraph] does with the page. *)
Inductive graph_view :=
  | NotRendered                    (* no current workflow: [return] *)
  | EmptyPlaceholder               (* no node: the placeholder paragraph *)
  | MermaidSource (text : string). (* the text given to [mermaid.render] *)

Definition renderGraph (st : State) : graph_view :=
  match currentWorkflow st with
  | None => NotRendered
  | Some wf =>
      match nodes (config wf) with
      | [] => EmptyPlaceholder
      | _ :: _ => MermaidSource (String.concat newline (graphDefinition (config wf)))
      end
  end.

Definition is_shape (s : statement) : bool :=
  match s with Shape _ _ _ => true | _ => false end.

(** The style line of the entry point, told from the one of a python node
    by its colours. *)
Definition is_highlight (s : statement) : bool :=
  match s with
  | Style _ css => bool_decide (css = ENTRY_STYLE)
  | _ => false
  end.

End DiagramProjector.

(** ** Concrete workflows and worlds *)

Module Examples.
Import Autosave.

(** The graph of the specification's examples: an LLM node [a] with a
    prompt, a join node [b], one edge between them, entry point [a]. *)
Definition wf_ab : Workflow :=
  mkWorkflow "w1" "demo"
    (mkConfig "a" ""
       [mkNode "a" "llm" ""; mkNode "b" "join" ""]
       [mkEdge "a" "b" false])
    (<["a" := "hello"]> ∅) ∅.

(** Two LLM nodes, each with its prompt. *)
Definition wf_two_prompts : Workflow :=
  mkWorkflow "w2" "demo"
    (mkConfig "a" ""
       [mkNode "a" "llm" ""; mkNode "b" "llm" ""]
       [mkEdge "a" "b" false])
    (<["a" := "text of a"]> (<["b" := "text of b"]> ∅)) ∅.

(** A node whose id holds a double quote. *)
Definition quoted_id : string := "a" +:+ dquote +:+ "b".
Definition cfg_quoted : Config :=
  mkConfig "" "" [mkNode quoted_id "llm" ""] [].

(** An entry point that names no node. *)
Definition cfg_ghost_entry : Config :=
  mkConfig "ghost" "" [mkNode "a" "llm" ""] [].

(** The page just after [wf] was loaded at time [t]: no timer, no request. *)
Definition fresh_world (wf : Workflow) (t : N) : World :=
  mkWorld (mkState (Some wf) None) (wf_name wf) t 1 [] JUndefined
          ("", SecondaryColor) [] 0.

End Examples.

(** ** Keys that every object inherits *)

Module JSObject.

(** The property names of [Object.prototype].  Reading one of them from
    an object that has no entry of its own under it yields the inherited
    value, which is not [undefined] and not a string. *)
Definition Object_prototype_keys : list string :=
  ["constructor"; "hasOwnProperty"; "isPrototypeOf"; "propertyIsEnumerable";
   "toLocaleString"; "toString"; "valueOf"; "__proto__";
   "__defineGetter__"; "__defineSetter__"; "__lookupGetter__";
   "__lookupSetter__"].

Definition inherited_key (k : string) : Prop := k ∈ Object_prototype_keys.

(** [m[k] = v] for a string [v].  Where [m] has no entry of its own under
    [__proto__] the assignment to that name goes to the setter of the
    prototype, which ignores a string; every other assignment stores the
    entry, over an inherited name as well. *)
Definition assign (k v : string) (m : gmap string string)
  : gmap string string :=
  if bool_decide (k = "__proto__") && bool_decide (m !! k = None) then m
  else <[k := v]> m.

End JSObject.

(** ** The other handlers of the editor *)

Module Handlers.
Import GraphModel SelectionValidator Autosave Editor JSObject.

Definition with_edges (wf : Workflow) (es : list Edge) : Workflow :=
  {| wf_id := wf_id wf; wf_name := wf_name wf;
     config := {| entry_point := entry_point (config wf);
                  final_output_key := final_output_key (config wf);
                  nodes := nodes (config wf); edges := es |};
     prompts := prompts wf; scripts := scripts wf |}.

Definition with_entry_point (wf : Workflow) (v : string) : Workflow :=
  {| wf_id := wf_id wf; wf_name := wf_name wf;
     config := {| entry_point := v;
                  final_output_key := final_output_key (config wf);
                  nodes := nodes (config wf); edges := edges (config wf) |};
     prompts := prompts wf; scripts := scripts wf |}.

Definition with_final_output_key (wf : Workflow) (v : string) : Workflow :=
  {| wf_id := wf_id wf; wf_name := wf_name wf;
     config := {| entry_point := entry_point (config wf);
                  final_output_key := v;
                  nodes := nodes (config wf); edges := edges (config wf) |};
     prompts := prompts wf; scripts := scripts wf |}.

Definition with_workflow (wf : Workflow) (w : World) : World :=
  set_state {| currentWorkflow := Some wf;
               selectedPrompt := selectedPrompt (state w) |} w.

(** [renderWorkflowName]: the name field shows the stored name again. *)
Definition renderWorkflowName (w : World) : World :=
  match currentWorkflow (state w) with
  | None => w
  | Some wf =>
      mkWorld (state w) (wf_name wf) (now w) (next_handle w) (timers w)
              (timeout w) (status w) (requests w) (in_flight w)
  end.

(** [renderAll] with its write to the name field besides the writes to
    the model. *)
Definition render_page (w : World) : World :=
  render_all (renderWorkflowName w).

(** The click handler of [add-edge-btn] up to the [push]: from the first
    node to the second, or to the end where there is no second node. *)
Definition addEdge (wf : Workflow) : Workflow :=
  let ns := nodes (config wf) in
  let source := match ns !! 0%nat with Some n => node_id n | None => "" end in
  let target := match ns !! 1%nat with
                | Some n => node_id n
                | None => END_SENTINEL
                end in
  with_edges wf (edges (config wf) ++ [mkEdge source target false]).

Definition add_edge_click (w : World) : outcome :=
  match currentWorkflow (state w) with
  | None => TypeError
  | Some wf => Done (handleStateChange (render_page (with_workflow (addEdge wf) w)))
  end.

(** The click handler of [edgesList], on the delete button of row [index]:
    [splice(index, 1)], which removes nothing past the end. *)
Definition delete_edge_click (index : nat) (w : World) : outcome :=
  match currentWorkflow (state w) with
  | None => TypeError
  | Some wf =>
      Done (handleStateChange
              (render_page
                 (with_workflow
                    (with_edges wf (delete index (edges (config wf)))) w)))
  end.

(** The three inputs of an edge row. *)
Inductive edge_field := EdgeSourceSelect | EdgeTargetSelect | EdgeConditionalBox.

Definition set_edge_field (field : edge_field) (value : string)
    (checked : bool) (e : Edge) : Edge :=
  match field with
  | EdgeSourceSelect =>
      {| edge_source := value; edge_target := edge_target e;
         edge_conditional := edge_conditional e |}
  | EdgeTargetSelect =>
      {| edge_source := edge_source e; edge_target := value;
         edge_conditional := edge_conditional e |}
  | EdgeConditionalBox =>
      {| edge_source := edge_source e; edge_target := edge_target e;
         edge_conditional := checked |}
  end.

(** The change handler of [edgesList], on [field] of row [index], the
    element holding [value] and being [checked]. *)
Definition edges_list_change (field : edge_field) (index : nat)
    (value : string) (checked : bool) (w : World) : outcome :=
  match currentWorkflow (state w) with
  | None => TypeError
  | Some wf =>
      match edges (config wf) !! index with
      | None => Done w
      | Some edge =>
          Done (handleStateChange
                  (with_workflow
                     (with_edges wf
                        (<[index := set_edge_field field value checked edge]>
                           (edges (config wf)))) w))
      end
  end.

(** The change handler of [entryPointSelect]. *)
Definition entry_point_change (value : string) (w : World) : outcome :=
  match currentWorkflow (state w) with
  | None => TypeError
  | Some wf => Done (handleStateChange (with_workflow (with_entry_point wf value) w))
  end.

(** The change handler of [finalOutputKeyInput]. *)
Definition final_output_key_change (value : string) (w : World) : outcome :=
  match currentWorkflow (state w) with
  | None => TypeError
  | Some wf =>
      Done (handleStateChange (with_workflow (with_final_output_key wf value) w))
  end.

(** The input handler of [promptTextarea] from the [find] on: the text goes
    under the selected id, into the map that the type of the first node of
    that id calls for; [None] where no node has the id. *)
Definition writeText (sel value : string) (wf : Workflow) : option Workflow :=
  match List.find (fun n => bool_decide (node_id n = sel)) (nodes (config wf)) with
  | None => None
  | Some selectedNode =>
      Some
        (if bool_decide (node_type selectedNode = "llm")
         then {| wf_id := wf_id wf; wf_name := wf_name wf; config := config wf;
                 prompts := assign sel value (prompts wf);
                 scripts := scripts wf |}
         else if bool_decide (node_type selectedNode = "python")
         then {| wf_id := wf_id wf; wf_name := wf_name wf; config := config wf;
                 prompts := prompts wf;
                 scripts := assign sel value (scripts wf) |}
         else wf)
  end.

Definition prompt_textarea_input (value : string) (w : World) : outcome :=
  match selectedPrompt (state w) with
  | None => Done w
  | Some sel =>
      if bool_decide (sel = "") then Done w
      else
        match currentWorkflow (state w) with
        | None => TypeError
        | Some wf =>
            match writeText sel value wf with
            | None => Done w
            | Some wf' => Done (handleStateChange (with_workflow wf' w))
            end
        end
  end.

(** The input handler of [workflowNameInput]; the field then holds
    [value]. *)
Definition workflow_name_input (value : string) (w : World) : outcome :=
  Done (handleStateChange
          (mkWorld (state w) value (now w) (next_handle w) (timers w)
                   (timeout w) (status w) (requests w) (in_flight w))).

(** The node handlers of [Editor] together with the write of [renderAll]
    to the name field, which [render_all] leaves out.  The write is made
    last here: [handleStateChange], which follows [renderAll] in the
    handlers, neither reads the name field nor writes the model.  A handler
    that returns before [renderAll], or never calls it, leaves the field
    alone. *)
Definition name_rendered (o : outcome) : outcome :=
  match o with
  | Done w => Done (renderWorkflowName w)
  | TypeError => TypeError
  end.

Definition add_node_click_page (w : World) : outcome :=
  name_rendered (add_node_click w).

Definition delete_node_click_page (index : nat) (w : World) : outcome :=
  match currentWorkflow (state w) with
  | None => TypeError
  | Some wf =>
      match nodes (config wf) !! index with
      | None => Done w
      | Some _ => name_rendered (delete_node_click index w)
      end
  end.

Definition nodes_list_change_page (field : node_field) (index : nat)
    (value : string) (w : World) : outcome :=
  match currentWorkflow (state w) with
  | None => TypeError
  | Some wf =>
      match nodes (config wf) !! index, field with
      | None, _ => Done w
      | Some _, NodeOutputKeyInput => nodes_list_change field index value w
      | Some _, _ => name_rendered (nodes_list_change field index value w)
      end
  end.

(** What can happen to the page of a loaded workflow. *)
Inductive event :=
  | AddNodeClick
  | DeleteNodeClick (index : nat)
  | NodesListChange (field : node_field) (index : nat) (value : string)
  | AddEdgeClick
  | DeleteEdgeClick (index : nat)
  | EdgesListChange (field : edge_field) (index : nat) (value : string)
                    (checked : bool)
  | EntryPointChange (value : string)
  | FinalOutputKeyChange (value : string)
  | PromptTextareaInput (value : string)
  | WorkflowNameInput (value : string)
  | SaveClick
  | SaveSettled (r : response)
  | TimePasses (T : N).

Definition dispatch (e : event) (w : World) : outcome :=
  match e with
  | AddNodeClick => add_node_click_page w
  | DeleteNodeClick index => delete_node_click_page index w
  | NodesListChange field index value =>
      nodes_list_change_page field index value w
  | AddEdgeClick => add_edge_click w
  | DeleteEdgeClick index => delete_edge_click index w
  | EdgesListChange field index value checked =>
      edges_list_change field index value checked w
  | EntryPointChange value => entry_point_change value w
  | FinalOutputKeyChange value => final_output_key_change value w
  | PromptTextareaInput value => prompt_textarea_input value w
  | WorkflowNameInput value => workflow_name_input value w
  | SaveClick => Done (saveWorkflow w)
  | SaveSettled r => Done (saveWorkflow_settled r w)
  | TimePasses T => Done (advance T w)
  end.

(** A handler that throws has written nothing before: the page stays as it
    was. *)
Definition step (w : World) (e : event) : World :=
  match dispatch e w with
  | Done w' => w'
  | TypeError => w
  end.

Definition run (es : list event) (w : World) : World := foldl step w es.

End Handlers.

(** ** Choosing and loading a workflow *)

Module Loading.
Import SelectionValidator Autosave Editor Handlers.

(** An entry of [state.workflows]. *)
Record Summary := mkSummary { summary_id : string; summary_name : string }.

(** The choice made by [loadWorkflows]: [None] stands for the empty list,
    where [showEmptyState] runs and nothing is loaded. *)
Definition idToLoad (workflows : list Summary) (current : option Workflow)
  : option string :=
  match workflows with
  | [] => None
  | first :: _ =>
      let currentId := option_map wf_id current in
      let currentExists :=
        existsb (fun s => bool_decide (Some (summary_id s) = currentId))
                workflows in
      if currentExists then currentId else Some (summary_id first)
  end.

(** [showEmptyState] *)
Definition showEmptyState (w : World) : World :=
  set_state {| currentWorkflow := None;
               selectedPrompt := selectedPrompt (state w) |} w.

(** [loadWorkflowDetail] once the workflow [data] has arrived: it becomes
    the current one under [workflowId], the selection is reset, the page
    is rendered and the status emptied. *)
Definition loadWorkflowDetail_arrived (workflowId : string) (data : Workflow)
    (w : World) : World :=
  let wf := {| wf_id := workflowId; wf_name := wf_name data;
               config := config data; prompts := prompts data;
               scripts := scripts data |} in
  updateSaveStatus "" SecondaryColor
    (render_page (set_state {| currentWorkflow := Some wf;
                               selectedPrompt := None |} w)).

End Loading.

(** ** Referential integrity, as the option lists of the page test it *)

Module Integrity.

(** [nodeIds.includes(edge.source)] and
    [[...nodeIds, '__end__'].includes(edge.target)] in [updateNodeOptions]. *)
Definition edge_resolves (ids : list string) (e : Edge) : Prop :=
  edge_source e ∈ ids ∧ (edge_target e ∈ ids ∨ edge_target e = END_SENTINEL).

Definition edges_resolve (wf : Workflow) : Prop :=
  Forall (edge_resolves (node_ids wf)) (edges (config wf)).

Definition entry_resolves (wf : Workflow) : Prop :=
  entry_point (config wf) = "" ∨ entry_point (config wf) ∈ node_ids wf.

(** Every key of [prompts] and of [scripts] is the id of a node. *)
Definition texts_keyed (wf : Workflow) : Prop :=
  (∀ k, is_Some (prompts wf !! k) → k ∈ node_ids wf)
  ∧ (∀ k, is_Some (scripts wf !! k) → k ∈ node_ids wf).

(** Every editable node has its text. *)
Definition texts_present (wf : Workflow) : Prop :=
  ∀ n, n ∈ nodes (config wf) →
    (node_type n = "llm" → is_Some (prompts wf !! node_id n))
    ∧ (node_type n = "python" → is_Some (scripts wf !! node_id n)).

End Integrity.

(** ** The events that write no end of an edge from the page *)

Module EventKinds.
Import Handlers.

(** All events but the two that take an end of an edge from outside the
    model: the add-edge button, whose edge starts at the empty id where
    there is no node, and the source and target selects of an edge row. *)
Definition writes_no_edge_end (e : event) : bool :=
  match e with
  | AddEdgeClick => false
  | EdgesListChange EdgeSourceSelect _ _ _ => false
  | EdgesListChange EdgeTargetSelect _ _ _ => false
  | _ => true
  end.

End EventKinds.

(** ** What the text area shows *)

Module TextArea.
Import SelectionValidator JSObject.

(** The value of [promptTextarea] when [renderEditor] returns, [before]
    being its value when [renderEditor] was called: the text of the
    selected node out of the map of its type, empty where there is none,
    and empty where nothing is editable or selected.  [None] stands for
    what the model does not hold: the text of the inherited value that
    the lookup finds where the selected id is one of
    [Object_prototype_keys] and the map has no entry of its own under it
    ([renderEditor] creates no default there), and the case of a
    selection that is none of the editable nodes, which is never
    reached. *)
Definition textarea_value (wf : Workflow) (sel : option string)
    (before : string) : option string :=
  match filter (fun n => editable n = true) (nodes (config wf)) with
  | [] => Some ""
  | editableNodes =>
      let r := renderEditor wf sel in
      match r.2 with
      | None => Some ""
      | Some s =>
          if bool_decide (s = "") then Some ""
          else
            match List.find (fun n => bool_decide (node_id n = s))
                            editableNodes with
            | Some selectedNode =>
                if bool_decide (node_type selectedNode = "llm")
                then if bool_decide (prompts wf !! s = None)
                        && bool_decide (s ∈ Object_prototype_keys)
                     then None
                     else Some (default "" (prompts r.1 !! s))
                else if bool_decide (node_type selectedNode = "python")
                then if bool_decide (scripts wf !! s = None)
                        && bool_decide (s ∈ Object_prototype_keys)
                     then None
                     else Some (default "" (scripts r.1 !! s))
                else Some before
            | None => None
            end
      end
  end.

End TextArea.

(** ** The end of a save whose name changed *)

Module SaveOutcome.
Import Autosave.



(** The message of the error that reading [id] of [null] raises. *)
Definition MSG_NULL_ID : string :=
  "Cannot read properties of null (reading 'id')".

(** [saveWorkflow] after its [await], lines 318 to 336, with the comparison
    of line 320 as [renamed]: both names were read before the request.
    When the name changed, lines 321 and 324 read [state.currentWorkflow.id];
    with no workflow current the read throws inside the [try], and line 328
    replaces the message of the success by the one of the failure.  The
    status timer of line 331 is armed on every path.  The function follows
    the code for the ids that are [selector_safe]. *)
Definition saveWorkflow_resumed (renamed : bool) (r : response) (w : World)
  : World :=
  match in_flight w with
  | O => w
  | S k =>
      let w1 := mkWorld (state w) (name_input w) (now w) (next_handle w)
                        (timers w) (timeout w) (status w) (requests w) k in
      let w2 :=
        match r with
        | Ok =>
            let w' := updateSaveStatus MSG_SAVED SuccessColor w1 in
            if renamed then
              match currentWorkflow (state w') with
              | None => updateSaveStatus (MSG_FAILED MSG_NULL_ID) DangerColor w'
              | Some _ => w'
              end
            else w'
        | Failed m => updateSaveStatus (MSG_FAILED m) DangerColor w1
        end in
      (setTimeout ClearStatus STATUS_CLEAR_WAIT w2).1
  end.

End SaveOutcome.

(** ** Two nodes of one id *)

Module Twins.

(** Two LLM nodes that both have the id [a], and the prompt under it. *)
Definition wf_twins : Workflow :=
  mkWorkflow "w3" "demo"
    (mkConfig "" "" [mkNode "a" "llm" ""; mkNode "a" "llm" ""] [])
    (<["a" := "hello"]> ∅) ∅.

End Twins.

(** * Properties of the model *)

Import GraphModel SelectionValidator Autosave Editor DiagramProjector Examples.

(** ** Moving a key of [prompts] or [scripts] *)

Section move_key.
Context (oldId newId : string) (m : gmap string string).

Lemma move_key_absent : m !! oldId = None → move_key oldId newId m = m.
Proof. intros H. unfold move_key. by rewrite H. Qed.

Lemma move_key_new text :
  oldId ≠ newId → m !! oldId = Some text →
  move_key oldId newId m !! newId = Some text.
Proof.
  intros Hne H. unfold move_key. rewrite H.
  rewrite lookup_delete_ne by done. apply lookup_insert_eq.
Qed.

Lemma move_key_old : oldId ≠ newId → move_key oldId newId m !! oldId = None.
Proof.
  intros Hne. unfold move_key. destruct (m !! oldId) eqn:E; [|done].
  apply lookup_delete_eq.
Qed.

Lemma move_key_other k :
  k ≠ oldId → k ≠ newId → move_key oldId newId m !! k = m !! k.
Proof.
  intros H1 H2. unfold move_key. destruct (m !! oldId) eqn:E; [|done].
  rewrite lookup_delete_ne by done. by rewrite lookup_insert_ne.
Qed.

Lemma move_key_size_collision text text' :
  oldId ≠ newId → m !! oldId = Some text → m !! newId = Some text' →
  size (move_key oldId newId m) = (size m - 1)%nat.
Proof.
  intros Hne H H'. unfold move_key. rewrite H.
  rewrite map_size_delete_Some.
  - rewrite map_size_insert_Some by eauto. lia.
  - rewrite lookup_insert_ne by done. eauto.
Qed.

End move_key.

(** The assignment followed by the [delete] drops the entry when both keys
    are the same. *)
Lemma move_key_same (a : string) (m : gmap string string) :
  move_key a a m !! a = None.
Proof.
  unfold move_key. destruct (m !! a) eqn:E; [|done]. apply lookup_delete_eq.
Qed.

(** ** What re-rendering keeps *)

Lemma ensure_text_keeps ps n k v :
  (ps.1 !! k = Some v → (ensure_text ps n).1 !! k = Some v)
  ∧ (ps.2 !! k = Some v → (ensure_text ps n).2 !! k = Some v).
Proof.
  unfold ensure_text.
  destruct (bool_decide (node_type n = "llm")); simpl.
  - case_bool_decide as Hn; simpl.
    + split; [|done]. intros Hk.
      destruct (decide (k = node_id n)) as [->|Hne]; [congruence|].
      by rewrite lookup_insert_ne.
    + destruct (bool_decide (node_type n = "python")); simpl; [|done].
      case_bool_decide as Hs; simpl; [|done].
      split; [done|]. intros Hk.
      destruct (decide (k = node_id n)) as [->|Hne]; [congruence|].
      by rewrite lookup_insert_ne.
  - destruct (bool_decide (node_type n = "python")); simpl; [|done].
    case_bool_decide as Hs; simpl; [|done].
    split; [done|]. intros Hk.
    destruct (decide (k = node_id n)) as [->|Hne]; [congruence|].
    by rewrite lookup_insert_ne.
Qed.

Lemma foldl_ensure_text_keeps l ps k v :
  (ps.1 !! k = Some v → (foldl ensure_text ps l).1 !! k = Some v)
  ∧ (ps.2 !! k = Some v → (foldl ensure_text ps l).2 !! k = Some v).
Proof.
  revert ps. induction l as [|n l IH]; intros ps; simpl; [done|].
  destruct (ensure_text_keeps ps n k v) as [H1 H2].
  destruct (IH (ensure_text ps n)) as [I1 I2]. split; auto.
Qed.

Lemma renderEditor_config wf sel : config (renderEditor wf sel).1 = config wf.
Proof. unfold renderEditor. by destruct (filter _ _). Qed.

Lemma renderEditor_prompts_keep wf sel k v :
  prompts wf !! k = Some v → prompts (renderEditor wf sel).1 !! k = Some v.
Proof.
  intros H. unfold renderEditor. destruct (filter _ _) as [|n l]; [done|].
  simpl. by apply (foldl_ensure_text_keeps (n :: l) (prompts wf, scripts wf)).
Qed.

Lemma renderEditor_scripts_keep wf sel k v :
  scripts wf !! k = Some v → scripts (renderEditor wf sel).1 !! k = Some v.
Proof.
  intros H. unfold renderEditor. destruct (filter _ _) as [|n l]; [done|].
  simpl. by apply (foldl_ensure_text_keeps (n :: l) (prompts wf, scripts wf)).
Qed.

Lemma handleStateChange_state w : state (handleStateChange w) = state w.
Proof.
  unfold handleStateChange, debouncedSave, clearTimeout.
  destruct (currentWorkflow (state w)); [|done].
  simpl. by destruct (timeout w).
Qed.

(** The workflow left by the node-id branch of the change handler is the
    renamed one, re-rendered. *)
Lemma nodes_list_change_id_workflow index newId w wf node :
  currentWorkflow (state w) = Some wf →
  nodes (config wf) !! index = Some node →
  workflow_of (nodes_list_change NodeIdInput index newId w)
  = Some (renderEditor (renameNode index newId wf (selectedPrompt (state w))).1
                       (renameNode index newId wf (selectedPrompt (state w))).2).1.
Proof.
  intros Hwf Hn. unfold nodes_list_change. rewrite Hwf, Hn.
  unfold workflow_of. rewrite handleStateChange_state.
  unfold render_all, renderAll. reflexivity.
Qed.

(** ** Renaming a node *)

Lemma rebind_eq oldId newId : rebind oldId newId oldId = newId.
Proof. unfold rebind. by rewrite decide_True. Qed.

Lemma rebind_ne oldId newId x : x ≠ oldId → rebind oldId newId x = x.
Proof. intros H. unfold rebind. by rewrite decide_False. Qed.

(** The five rewrites of a rename, for a new id other than the old one. *)
Lemma renameNode_rebinds index newId wf sel node :
  nodes (config wf) !! index = Some node →
  let oldId := node_id node in
  let r := renameNode index newId wf sel in
  nodes (config r.1) !! index = Some (set_node_id node newId)
  ∧ length (edges (config r.1)) = length (edges (config wf))
  ∧ (∀ i e, edges (config wf) !! i = Some e →
       ∃ e', edges (config r.1) !! i = Some e'
         ∧ edge_source e' = rebind oldId newId (edge_source e)
         ∧ edge_target e' = rebind oldId newId (edge_target e)
         ∧ edge_conditional e' = edge_conditional e)
  ∧ entry_point (config r.1) = rebind oldId newId (entry_point (config wf))
  ∧ (sel = Some oldId → r.2 = Some newId)
  ∧ (oldId ≠ newId → ∀ text, prompts wf !! oldId = Some text →
       prompts r.1 !! newId = Some text ∧ prompts r.1 !! oldId = None)
  ∧ (oldId ≠ newId → ∀ text, scripts wf !! oldId = Some text →
       scripts r.1 !! newId = Some text ∧ scripts r.1 !! oldId = None).
Proof.
  intros Hn oldId r. subst r. unfold renameNode. rewrite Hn. simpl.
  split_and!.
  - apply list_lookup_insert_eq. by eapply lookup_lt_Some.
  - apply length_map.
  - intros i e He. exists (rename_edge oldId newId e). split; [|done].
    change (map ?f ?l) with (f <$> l). by rewrite list_lookup_fmap, He.
  - done.
  - intros ->. by rewrite decide_True.
  - intros Hne text Ht. split; [by apply move_key_new | by apply move_key_old].
  - intros Hne text Ht. split; [by apply move_key_new | by apply move_key_old].
Qed.

(** C1 (the code against the claim). Renaming the node [a] of the example
    graph to [a] itself, as the change handler does when the id field is
    committed with the text it already holds: the prompt stored under [a]
    is assigned to itself and then deleted, so the rename does not keep the
    text of the entry it moves.  The whole handler leaves the empty default
    prompt in its place. *)
Theorem C1_rename_to_same_id_drops_text :
  nodes (config wf_ab) !! 0%nat = Some (mkNode "a" "llm" "")
  ∧ prompts wf_ab !! "a" = Some "hello"
  ∧ prompts (renameNode 0 "a" wf_ab None).1 !! "a" = None
  ∧ ∃ wf', workflow_of (nodes_list_change NodeIdInput 0 "a" (fresh_world wf_ab 0))
           = Some wf'
         ∧ node_ids wf' = ["a"; "b"]
         ∧ prompts wf' !! "a" = Some "".
Proof.
  split_and!; [done | done | by vm_compute |].
  eexists. split_and!; [reflexivity | by vm_compute | by vm_compute].
Qed.

(** C10. When the node at [index] is renamed to a [newId] other than its
    own id, and both ids have an entry in [prompts] (or in [scripts]), the
    entry moved from the old id overwrites the one of the colliding node:
    the map then holds the text of the old id under [newId], nothing under
    the old id, one entry less, and the text of the colliding node only
    where another key held it too.  The workflow left by the whole change
    handler still holds the moved text under [newId]. *)
Theorem C10_rename_collision_overwrites index newId wf sel node :
  nodes (config wf) !! index = Some node →
  node_id node ≠ newId →
  let oldId := node_id node in
  let r := renameNode index newId wf sel in
  (∀ t t', prompts wf !! oldId = Some t → prompts wf !! newId = Some t' →
     overwritten oldId newId t t' (prompts wf) (prompts r.1)
     ∧ ∀ w, state w = mkState (Some wf) sel →
         ∃ wf', workflow_of (nodes_list_change NodeIdInput index newId w)
                = Some wf'
              ∧ prompts wf' !! newId = Some t)
  ∧ (∀ t t', scripts wf !! oldId = Some t → scripts wf !! newId = Some t' →
     overwritten oldId newId t t' (scripts wf) (scripts r.1)
     ∧ ∀ w, state w = mkState (Some wf) sel →
         ∃ wf', workflow_of (nodes_list_change NodeIdInput index newId w)
                = Some wf'
              ∧ scripts wf' !! newId = Some t).
Proof.
  intros Hn Hne oldId r.
  assert (Hov : ∀ m t t', m !! oldId = Some t → m !! newId = Some t' →
            overwritten oldId newId t t' m (move_key oldId newId m)).
  { intros m t t' Ht Ht'. unfold overwritten. split_and!.
    - by apply move_key_new.
    - by apply move_key_old.
    - intros k H1 H2. by apply move_key_other.
    - by eapply move_key_size_collision.
    - intros k Hk. destruct (decide (k = newId)) as [->|Hk1].
      { rewrite (move_key_new _ _ _ t) in Hk by done. left. congruence. }
      destruct (decide (k = oldId)) as [->|Hk2].
      { rewrite move_key_old in Hk by done. done. }
      rewrite move_key_other in Hk by done. by right. }
  assert (Hwf : ∀ w, state w = mkState (Some wf) sel →
            workflow_of (nodes_list_change NodeIdInput index newId w)
            = Some (renderEditor r.1 r.2).1).
  { intros w Hw. erewrite nodes_list_change_id_workflow; [|by rewrite Hw|done].
    by rewrite Hw. }
  split; intros t t' Ht Ht'.
  - split; [subst r; unfold renameNode; rewrite Hn; by apply Hov|].
    intros w Hw. eexists. split; [by apply Hwf|].
    apply renderEditor_prompts_keep. subst r. unfold renameNode. rewrite Hn.
    by apply move_key_new.
  - split; [subst r; unfold renameNode; rewrite Hn; by apply Hov|].
    intros w Hw. eexists. split; [by apply Hwf|].
    apply renderEditor_scripts_keep. subst r. unfold renameNode. rewrite Hn.
    by apply move_key_new.
Qed.

Lemma C10_rename_collision_overwrites_witness :
  overwritten "a" "b" "text of a" "text of b"
    (prompts wf_two_prompts) (prompts (renameNode 0 "b" wf_two_prompts None).1).
Proof.
  refine (proj1 (proj1
    (C10_rename_collision_overwrites 0 "b" wf_two_prompts None
       (mkNode "a" "llm" "") _ _) "text of a" "text of b" _ _));
    [reflexivity | discriminate | reflexivity | reflexivity].
Defined.

(** C3 (the claim fails). The change handler takes the empty string like
    any other id: on the example graph it returns normally, and the first
    node then has the empty id, so the model is not left unchanged. *)
Lemma C3_empty_id_is_accepted :
  ∃ w', nodes_list_change NodeIdInput 0 "" (fresh_world wf_ab 0) = Done w'
      ∧ option_map node_ids (currentWorkflow (state w')) = Some [""; "b"].
Proof. eexists. split; [reflexivity | by vm_compute]. Qed.

(** C3 (amended). With a workflow loaded the rename has no failure mode:
    for every [newId], empty or equal to the id of another node, the
    handler returns normally and the node at [index] carries [newId]; where
    [index] names no node nothing changes. *)
Theorem C3_rename_always_succeeds index newId w wf :
  currentWorkflow (state w) = Some wf →
  ∃ w', nodes_list_change NodeIdInput index newId w = Done w'
    ∧ (∀ node, nodes (config wf) !! index = Some node →
         ∃ wf', currentWorkflow (state w') = Some wf'
              ∧ nodes (config wf') !! index = Some (set_node_id node newId))
    ∧ (nodes (config wf) !! index = None → w' = w).
Proof.
  intros Hwf. unfold nodes_list_change. rewrite Hwf.
  destruct (nodes (config wf) !! index) as [node|] eqn:Hn.
  - eexists. split; [reflexivity|]. split; [|done].
    intros ? [= <-]. rewrite handleStateChange_state.
    unfold render_all, renderAll. simpl. eexists. split; [reflexivity|].
    rewrite renderEditor_config. unfold renameNode. rewrite Hn. simpl.
    apply list_lookup_insert_eq. by eapply lookup_lt_Some.
  - eexists. split; [reflexivity|]. split; [done|]. done.
Qed.

Lemma C3_rename_always_succeeds_witness :
  ∃ w', nodes_list_change NodeIdInput 0 "b" (fresh_world wf_ab 0) = Done w'.
Proof.
  destruct (C3_rename_always_succeeds 0 "b" (fresh_world wf_ab 0) wf_ab eq_refl)
    as (w' & H & _).
  exists w'. exact H.
Defined.

(** ** Removing a node *)

Lemma elem_of_delete_other {A} (l : list A) (i : nat) (x y : A) :
  l !! i = Some y → x ∈ l → x ≠ y → x ∈ delete i l.
Proof.
  intros Hy [j Hj]%list_elem_of_lookup Hxy. apply list_elem_of_lookup.
  destruct (decide (j < i)%nat) as [Hlt|Hge].
  - exists j. by rewrite list_lookup_delete_lt.
  - assert (j ≠ i) by (intros ->; congruence).
    exists (j - 1)%nat. rewrite list_lookup_delete_ge by lia.
    replace (S (j - 1)) with j by lia. done.
Qed.

(** C2 (the claim fails). Removing the node [a] of the example graph, whose
    id is the entry point: the core of the handler and the whole handler
    both leave [entry_point] at [a], though no node [a] remains.  And where
    two nodes have the id [a], removing the first leaves a key [a] in
    [prompts]: the handler renders the page again, and the node that
    remains gets the empty default prompt. *)
Lemma C2_entry_point_survives_removal :
  nodes (config wf_ab) !! 0%nat = Some (mkNode "a" "llm" "")
  ∧ entry_point (config wf_ab) = "a"
  ∧ entry_point (config (removeNode 0 wf_ab None).1) = "a"
  ∧ node_ids (removeNode 0 wf_ab None).1 = ["b"]
  ∧ (∃ wf', workflow_of (delete_node_click 0 (fresh_world wf_ab 0)) = Some wf'
          ∧ entry_point (config wf') = "a"
          ∧ node_ids wf' = ["b"])
  ∧ ∃ wf', workflow_of (delete_node_click 0 (fresh_world Twins.wf_twins 0))
           = Some wf'
         ∧ node_ids wf' = ["a"]
         ∧ prompts wf' !! "a" = Some "".
Proof.
  split_and!; [done | done | done | done | |].
  - eexists. split_and!; [reflexivity | by vm_compute | by vm_compute].
  - eexists. split_and!; [reflexivity | by vm_compute | by vm_compute].
Qed.

(** The delete handler before it renders the page again: the node leaves
    the list, exactly the edges with source or target [A] are removed,
    [prompts] and [scripts] hold no key [A], and the selection is reset if
    it was [A].  [entry_point] is left as it was: the invariant that it is
    empty or names a present node is kept when it was not [A]. *)
Lemma removeNode_cascade index wf sel node :
  nodes (config wf) !! index = Some node →
  let A := node_id node in
  let r := removeNode index wf sel in
  nodes (config r.1) = delete index (nodes (config wf))
  ∧ (∀ e, e ∈ edges (config r.1)
          ↔ e ∈ edges (config wf) ∧ edge_source e ≠ A ∧ edge_target e ≠ A)
  ∧ prompts r.1 !! A = None
  ∧ scripts r.1 !! A = None
  ∧ (sel = Some A → r.2 = None)
  ∧ entry_point (config r.1) = entry_point (config wf)
  ∧ (entry_point (config wf) ≠ A →
     entry_point (config wf) = "" ∨ entry_point (config wf) ∈ node_ids wf →
     entry_point (config r.1) = "" ∨ entry_point (config r.1) ∈ node_ids r.1).
Proof.
  intros Hn A r. subst r. unfold removeNode. rewrite Hn. simpl.
  split_and!.
  - done.
  - intros e. rewrite list_elem_of_filter. tauto.
  - apply lookup_delete_eq.
  - apply lookup_delete_eq.
  - intros ->. by rewrite decide_True.
  - done.
  - intros Hne [He|He]; [by left|right].
    unfold node_ids in *. simpl.
    change (map ?f ?l) with (f <$> l) in *.
    apply list_elem_of_fmap in He as (n & Hid & Hin).
    apply list_elem_of_fmap. exists n. split; [done|].
    eapply elem_of_delete_other; [done..|].
    intros ->. by apply Hne.
Qed.

(** ** Adding a node *)

Lemma newNodeId_inj t t' : newNodeId t = newNodeId t' → t = t'.
Proof. unfold newNodeId. intros H. simplify_eq/=. by apply (inj pretty). Qed.

(** C4 (the claim fails). Two clicks on the add-node button within the same
    millisecond give two nodes the same id. *)
Lemma C4_same_timestamp_same_id :
  ∃ w1 w2, add_node_click (fresh_world wf_ab 1700000000000) = Done w1
         ∧ add_node_click w1 = Done w2
         ∧ option_map node_ids (currentWorkflow (state w2))
           = Some ["a"; "b"; "node_1700000000000"; "node_1700000000000"].
Proof.
  eexists. eexists. split_and!; [reflexivity | reflexivity | by vm_compute].
Qed.

(** C4 (amended). With a workflow loaded the add-node handler always
    succeeds and appends one node of type llm with an empty output key,
    whose id is made of the current time alone, unchecked against the ids
    present: the ids stay distinct exactly when they were distinct and none
    of them was that id already. *)
Theorem C4_addNode_appends w wf :
  currentWorkflow (state w) = Some wf →
  ∃ w' wf', add_node_click w = Done w'
    ∧ currentWorkflow (state w') = Some wf'
    ∧ nodes (config wf')
      = (nodes (config wf) ++ [mkNode (newNodeId (now w)) "llm" ""])%list
    ∧ (NoDup (node_ids wf')
       ↔ NoDup (node_ids wf) ∧ newNodeId (now w) ∉ node_ids wf).
Proof.
  intros Hwf. unfold add_node_click. rewrite Hwf.
  eexists. eexists. split; [reflexivity|].
  rewrite handleStateChange_state. unfold render_all, renderAll. simpl.
  split; [reflexivity|].
  unfold node_ids. rewrite renderEditor_config. simpl.
  split; [done|].
  rewrite map_app. simpl. rewrite NoDup_app. split.
  - intros (H1 & H2 & _). split; [done|]. intros Hin.
    apply (H2 _ Hin). by left.
  - intros [H1 H2]. split_and!; [done| |apply NoDup_singleton].
    intros x Hx ->%list_elem_of_singleton. done.
Qed.

Lemma C4_addNode_appends_witness :
  ∃ w', add_node_click (fresh_world wf_ab 5) = Done w'.
Proof.
  destruct (C4_addNode_appends (fresh_world wf_ab 5) wf_ab eq_refl)
    as (w' & wf' & H & _).
  exists w'. exact H.
Defined.

(** ** The diagram *)

Lemma has_dquote_app s1 s2 :
  has_dquote (s1 +:+ s2) = has_dquote s1 || has_dquote s2.
Proof.
  induction s1 as [|c s1 IH]; simpl; [done|]. rewrite IH. apply orb_assoc.
Qed.

(** The identifier position of a statement holds no raw double quote. *)
Lemma escape_quotes_clean s : has_dquote (escape_quotes s) = false.
Proof.
  induction s as [|c s IH]; simpl; [done|].
  destruct (is_dquote c) eqn:E; simpl; [done|]. by rewrite E.
Qed.

(** The label holds the id as it is. *)
Lemma nodeLabel_raw n :
  has_dquote (node_id n) = true → has_dquote (nodeLabel n) = true.
Proof. intros H. unfold nodeLabel. by rewrite has_dquote_app, H. Qed.

Lemma node_statements_head n :
  ∃ d rest, node_statements n
            = Shape (escape_quotes (node_id n)) d (nodeLabel n) :: rest
          ∧ Forall (fun s => is_shape s = false) rest
          ∧ Forall (fun s => is_highlight s = false) (node_statements n).
Proof.
  unfold node_statements.
  destruct (bool_decide (node_type n = "python")).
  - eexists _, _. split; [reflexivity|]. split; repeat constructor.
  - destruct (bool_decide (node_type n = "join")).
    + eexists _, _. split; [reflexivity|]. split; repeat constructor.
    + eexists _, _. split; [reflexivity|]. split; repeat constructor.
Qed.

(** C8 (the code against the claim). A node whose id is [a], a double
    quote, [b]: the identifier before the bracket is escaped, but the label
    between the quotes of the shape statement is built from the id as it
    is, so the label payload holds a raw double quote. *)
Theorem C8_label_keeps_raw_quote :
  has_dquote quoted_id = true
  ∧ statements cfg_quoted
    = [Shape "a#quot;b" false (quoted_id +:+ "<br/><i>(llm)</i>")]
  ∧ has_dquote (quoted_id +:+ "<br/><i>(llm)</i>") = true
  ∧ graphDefinition cfg_quoted
    = ["graph TD";
       "  a#quot;b[" +:+ dquote +:+ "a" +:+ dquote +:+ "b<br/><i>(llm)</i>"
         +:+ dquote +:+ "]"].
Proof. split_and!; reflexivity. Qed.

(** Every node whose id holds a double quote gets such a label. *)
Lemma label_keeps_raw_quote n :
  has_dquote (node_id n) = true →
  ∃ nodeId d label, Shape nodeId d label ∈ node_statements n
                  ∧ has_dquote nodeId = false
                  ∧ has_dquote label = true.
Proof.
  intros H. destruct (node_statements_head n) as (d & rest & -> & _).
  eexists _, d, _. split; [by left|].
  split; [apply escape_quotes_clean | by apply nodeLabel_raw].
Qed.

Lemma node_shapes_count l :
  length (filter (fun s => is_shape s = true) (flat_map node_statements l))
  = length l.
Proof.
  induction l as [|n l IH]; simpl; [done|].
  rewrite filter_app, length_app, IH.
  destruct (node_statements_head n) as (d & rest & -> & Hrest & _).
  rewrite filter_cons_True by done.
  replace (filter _ rest) with (@nil statement); [done|].
  symmetry. clear -Hrest. induction Hrest as [|s r Hs _ IHr]; [done|].
  rewrite filter_cons_False by (rewrite Hs; done). done.
Qed.

Lemma node_statements_no_highlight l :
  Forall (fun s => is_highlight s = false) (flat_map node_statements l).
Proof.
  induction l as [|n l IH]; simpl; [constructor|].
  apply Forall_app. split; [|done].
  by destruct (node_statements_head n) as (_ & _ & _ & _ & H).
Qed.

Lemma entry_statements_cases cfg :
  entry_statements cfg
  = if decide (entry_point cfg = "") then []
    else [Style (entry_point cfg) ENTRY_STYLE].
Proof.
  unfold entry_statements. case_bool_decide; by case_decide.
Qed.

Lemma filter_none {A} (P : A → Prop) `{!∀ x, Decision (P x)} (l : list A) :
  Forall (fun x => ¬ P x) l → filter P l = [].
Proof.
  induction 1 as [|x l Hx _ IH]; [done|]. by rewrite filter_cons_False.
Qed.

Lemma filter_all {A} (P : A → Prop) `{!∀ x, Decision (P x)} (l : list A) :
  Forall P l → filter P l = l.
Proof.
  induction 1 as [|x l Hx _ IH]; [done|]. rewrite filter_cons_True by done.
  by rewrite IH.
Qed.

(** C9 (the claim fails). With an entry point that names no node the
    highlight statement is emitted all the same. *)
Lemma C9_highlight_without_matching_node :
  Forall (fun n => node_id n ≠ entry_point cfg_ghost_entry)
         (nodes cfg_ghost_entry)
  ∧ statements cfg_ghost_entry
    = [Shape "a" false "a<br/><i>(llm)</i>"; Style "ghost" ENTRY_STYLE].
Proof. split; [by repeat constructor | reflexivity]. Qed.

(** C9 (amended). Among the statements of the diagram each node has exactly
    one shape statement, which opens the statements of the node; the
    highlight statement is emitted exactly when [entry_point] is not empty,
    whether or not a node has that id; it names [entry_point] as stored,
    and every shape statement comes before it. *)
Theorem C9_shapes_and_highlight cfg :
  (∀ n, length (filter (fun s => is_shape s = true) (node_statements n)) = 1%nat
        ∧ ∃ d label, head (node_statements n)
                     = Some (Shape (escape_quotes (node_id n)) d label))
  ∧ length (filter (fun s => is_shape s = true) (statements cfg))
    = length (nodes cfg)
  ∧ filter (fun s => is_highlight s = true) (statements cfg)
    = (if decide (entry_point cfg = "") then []
       else [Style (entry_point cfg) ENTRY_STYLE])
  ∧ (∀ i j s s', statements cfg !! i = Some s → is_highlight s = true →
       statements cfg !! j = Some s' → is_shape s' = true → (j < i)%nat).
Proof.
  assert (Hedges : ∀ l, Forall (fun s => is_shape s = false
                                       ∧ is_highlight s = false)
                          (map edge_statement l)).
  { induction l; simpl; constructor; done. }
  assert (Hentry : Forall (fun s => is_shape s = false) (entry_statements cfg)).
  { rewrite entry_statements_cases. case_decide; repeat constructor. }
  split_and!.
  - intros n. pose proof (node_shapes_count [n]) as H. simpl in H.
    rewrite app_nil_r in H. split; [done|].
    destruct (node_statements_head n) as (d & rest & -> & _). by eexists _, _.
  - unfold statements. rewrite !filter_app, !length_app, node_shapes_count.
    rewrite (filter_none _ (entry_statements cfg)).
    2:{ eapply Forall_impl; [exact Hentry|]. simpl. intros s ->. done. }
    rewrite (filter_none _ (map _ _)).
    2:{ eapply Forall_impl; [apply Hedges|]. simpl. intros s [-> _]. done. }
    simpl. lia.
  - unfold statements. rewrite !filter_app.
    rewrite (filter_none _ (flat_map _ _)).
    2:{ eapply Forall_impl; [apply node_statements_no_highlight|].
        simpl. intros s ->. done. }
    rewrite (filter_none _ (map _ _)).
    2:{ eapply Forall_impl; [apply Hedges|]. simpl. intros s [_ ->]. done. }
    rewrite app_nil_r. simpl. rewrite entry_statements_cases.
    case_decide; [done|]. by rewrite filter_cons_True.
  - intros i j s s' Hi Hs Hj Hs'. unfold statements in *.
    set (A := flat_map node_statements (nodes cfg)) in *.
    assert (length A ≤ i)%nat as Hge.
    { destruct (decide (i < length A)%nat) as [Hlt|]; [|lia].
      rewrite lookup_app_l in Hi by done.
      pose proof (node_statements_no_highlight (nodes cfg)) as HA.
      rewrite Forall_lookup in HA. specialize (HA _ _ Hi). simpl in HA.
      congruence. }
    destruct (decide (j < length A)%nat) as [|Hnlt]; [lia|].
    rewrite lookup_app_r in Hj by lia.
    assert (Forall (fun s => is_shape s = false)
              (entry_statements cfg ++ map edge_statement (edges cfg))) as HB.
    { apply Forall_app. split; [done|].
      eapply Forall_impl; [apply Hedges|]. by intros ? [? _]. }
    rewrite Forall_lookup in HB. specialize (HB _ _ Hj). simpl in HB.
    congruence.
Qed.

(** ** The scheduler *)

(** *** Timers and their cancellation *)

Lemma clearTimeout_timers v w :
  timers (clearTimeout v w)
  = filter (fun tm => v ≠ JNumber (handle tm)) (timers w).
Proof.
  destruct v as [|h|]; simpl.
  - symmetry. apply filter_all, Forall_forall. done.
  - apply list_filter_iff. intros tm. split; [congruence|].
    intros H Heq. apply H. by rewrite Heq.
  - symmetry. apply filter_all, Forall_forall. done.
Qed.

Lemma clearTimeout_rest v w :
  state (clearTimeout v w) = state w
  ∧ now (clearTimeout v w) = now w
  ∧ next_handle (clearTimeout v w) = next_handle w
  ∧ timeout (clearTimeout v w) = timeout w
  ∧ requests (clearTimeout v w) = requests w
  ∧ name_input (clearTimeout v w) = name_input w.
Proof. by destruct v. Qed.

Lemma filter_swap {A} (P Q : A → Prop) `{!∀ x, Decision (P x)}
    `{!∀ x, Decision (Q x)} (l : list A) :
  filter P (filter Q l) = filter Q (filter P l).
Proof. rewrite !list_filter_filter. apply list_filter_iff. tauto. Qed.

Lemma NoDup_handles_filter (P : Timer → Prop) `{!∀ x, Decision (P x)} l :
  NoDup (map handle l) → NoDup (map handle (filter P l)).
Proof.
  intros Hnd. eapply sublist_NoDup; [exact Hnd|].
  change (map ?f ?x) with (f <$> x). apply fmap_sublist, sublist_filter.
Qed.

Lemma Forall_filter_keep {A} (P Q : A → Prop) `{!∀ x, Decision (P x)} l :
  Forall Q l → Forall Q (filter P l).
Proof.
  rewrite !Forall_forall. intros HQ x [_ Hx]%list_elem_of_filter. auto.
Qed.

Lemma handle_determines l (a b : Timer) :
  NoDup (map handle l) → a ∈ l → b ∈ l → handle a = handle b → a = b.
Proof.
  induction l as [|x l IH]; simpl; [by intros _ ?%elem_of_nil|].
  intros [Hx Hl]%NoDup_cons Ha Hb Hab.
  apply elem_of_cons in Ha as [->|Ha]; apply elem_of_cons in Hb as [->|Hb].
  - done.
  - exfalso. apply Hx. rewrite Hab. change (map ?f ?y) with (f <$> y).
    by apply list_elem_of_fmap_2.
  - exfalso. apply Hx. rewrite <- Hab. change (map ?f ?y) with (f <$> y).
    by apply list_elem_of_fmap_2.
  - by apply IH.
Qed.

(** *** The order in which due timers fire *)

Lemma earliest_elem l tm : earliest l = Some tm → tm ∈ l.
Proof.
  revert tm. induction l as [|x l IH]; simpl; [done|]. intros tm.
  destruct (earliest l) as [m|].
  - intros [= <-]. destruct (before x m); [by left|]. right. by apply IH.
  - intros [= <-]. by left.
Qed.

Lemma earliest_min l tm x : earliest l = Some tm → x ∈ l → due tm <= due x.
Proof.
  revert tm. induction l as [|y l IH]; simpl; [by intros ? _ ?%elem_of_nil|].
  intros tm. destruct (earliest l) as [m|] eqn:E.
  - intros [= <-] Hx. specialize (IH m eq_refl).
    assert (before y m = true → due y <= due m) as Hb.
    { unfold before. rewrite orb_true_iff, andb_true_iff, N.ltb_lt, N.eqb_eq.
      lia. }
    assert (before y m = false → due m <= due y) as Hnb.
    { unfold before. rewrite orb_false_iff, N.ltb_ge. by intros [? _]. }
    apply elem_of_cons in Hx as [->|Hx].
    + destruct (before y m) eqn:Eb; [lia|]. by apply Hnb.
    + specialize (IH Hx). destruct (before y m) eqn:Eb; [|done].
      specialize (Hb eq_refl). lia.
  - intros [= <-] Hx. apply elem_of_cons in Hx as [->|Hx]; [lia|].
    destruct l; [by apply elem_of_nil in Hx|]. simpl in E.
    by destruct (earliest l).
Qed.

Lemma earliest_None l : earliest l = None → l = [].
Proof. destruct l as [|x l]; [done|]. simpl. by destruct (earliest l). Qed.

Lemma next_due_Some T l tm :
  next_due T l = Some tm →
  tm ∈ l ∧ due tm <= T ∧ ∀ x, x ∈ l → due x <= T → due tm <= due x.
Proof.
  unfold next_due. intros H.
  pose proof (earliest_elem _ _ H) as [Hin Hd]%list_elem_of_filter.
  split_and!; [done..|]. intros x Hx HxT.
  eapply earliest_min; [done|]. by apply list_elem_of_filter.
Qed.

Lemma next_due_None T l : next_due T l = None → Forall (fun tm => T < due tm) l.
Proof.
  unfold next_due. intros H%earliest_None. apply Forall_forall. intros x Hx.
  destruct (decide (due x <= T)) as [Hle|]; [|lia].
  exfalso. eapply (filter_nil_not_elem_of _ _ _ H); [|done]. done.
Qed.

(** *** What firing a timer does *)

Lemma pending_saves_filter (P : Timer → Prop) `{!∀ x, Decision (P x)} l w :
  timers w = filter P l →
  pending_saves w = filter P (filter (fun tm => action tm = Later) l).
Proof. intros Hw. unfold pending_saves. rewrite Hw. apply filter_swap. Qed.

Lemma fire_clear_status tm w :
  action tm = ClearStatus →
  timers (fire tm w) = filter (fun x => handle x ≠ handle tm) (timers w)
  ∧ requests (fire tm w) = requests w
  ∧ state (fire tm w) = state w
  ∧ timeout (fire tm w) = timeout w
  ∧ next_handle (fire tm w) = next_handle w
  ∧ now (fire tm w) = N.max (now w) (due tm).
Proof.
  intros Ha. unfold fire. rewrite Ha. simpl. unfold clear_status.
  by case_bool_decide.
Qed.

Lemma saveWorkflow_loaded w :
  loaded w →
  requests (saveWorkflow w) = requests w ++ [now w]
  ∧ timers (saveWorkflow w) = timers w
  ∧ now (saveWorkflow w) = now w
  ∧ loaded (saveWorkflow w).
Proof.
  intros (wf & Hwf & Hid). unfold saveWorkflow. rewrite Hwf.
  rewrite bool_decide_false by done. simpl. split_and!; [done..|].
  eexists. split; [reflexivity|done].
Qed.

Lemma fire_later tm w :
  action tm = Later → loaded w →
  requests (fire tm w) = requests w ++ [N.max (now w) (due tm)]
  ∧ timers (fire tm w)
    = filter (fun x => timeout w ≠ JNumber (handle x))
             (filter (fun x => handle x ≠ handle tm) (timers w))
  ∧ now (fire tm w) = N.max (now w) (due tm)
  ∧ loaded (fire tm w).
Proof.
  intros Ha Hl. unfold fire. rewrite Ha. simpl. unfold later.
  set (w1 := set_now _ _).
  destruct (clearTimeout_rest (timeout w1) w1) as (Hs & Hn & _ & _ & Hr & _).
  assert (loaded (clearTimeout (timeout w1) w1)) as Hl1.
  { unfold loaded. rewrite Hs. exact Hl. }
  destruct (saveWorkflow_loaded _ Hl1) as (R & Tm & Nw & L).
  rewrite R, Tm, Nw, Hr, Hn, clearTimeout_timers. done.
Qed.

(** *** Time passing *)

(** With no debounce timer pending nothing is saved, whatever fires. *)
Lemma run_timers_idle k T w :
  pending_saves w = [] →
  requests (run_timers k T w) = requests w
  ∧ pending_saves (run_timers k T w) = [].
Proof.
  revert w. induction k as [|k IH]; intros w Hp; simpl; [done|].
  destruct (next_due T (timers w)) as [tm|] eqn:E; [|done].
  apply next_due_Some in E as (Hin & _ & _).
  assert (action tm = ClearStatus) as Ha.
  { destruct (action tm) eqn:Ea; [|done]. exfalso.
    eapply (filter_nil_not_elem_of _ _ _ Hp); [|exact Hin]. done. }
  destruct (fire_clear_status tm w Ha) as (Ht & Hr & _).
  destruct (IH (fire tm w)) as [IH1 IH2].
  { rewrite (pending_saves_filter _ _ _ Ht). fold (pending_saves w).
    by rewrite Hp. }
  by rewrite IH1, Hr.
Qed.

(** While the debounce timers are not due they stay pending and nothing
    is saved. *)
Lemma run_timers_quiet k T w :
  handles_fresh w →
  Forall (fun tm => T < due tm) (pending_saves w) →
  pending_saves (run_timers k T w) = pending_saves w
  ∧ timeout (run_timers k T w) = timeout w
  ∧ requests (run_timers k T w) = requests w
  ∧ state (run_timers k T w) = state w
  ∧ handles_fresh (run_timers k T w)
  ∧ (now w <= T → now (run_timers k T w) <= T).
Proof.
  revert w. induction k as [|k IH]; intros w Hf Hq; simpl; [done|].
  destruct (next_due T (timers w)) as [tm|] eqn:E; [|done].
  apply next_due_Some in E as (Hin & HT & _).
  assert (action tm = ClearStatus) as Ha.
  { destruct (action tm) eqn:Ea; [|done]. exfalso.
    rewrite Forall_forall in Hq. specialize (Hq tm).
    unfold pending_saves in Hq. rewrite list_elem_of_filter in Hq.
    specialize (Hq (conj Ea Hin)). lia. }
  destruct (fire_clear_status tm w Ha) as (Ht & Hr & Hs & Hto & Hnh & Hnow).
  assert (pending_saves (fire tm w) = pending_saves w) as Hp.
  { rewrite (pending_saves_filter _ _ _ Ht). fold (pending_saves w).
    apply filter_all, Forall_forall. intros x [Hx Hxin]%list_elem_of_filter Heq.
    destruct Hf as [Hnd _].
    assert (x = tm) as -> by (by eapply handle_determines). congruence. }
  assert (handles_fresh (fire tm w)) as Hf'.
  { destruct Hf as [Hnd Hlt]. unfold handles_fresh. rewrite Ht, Hnh.
    split; [by apply NoDup_handles_filter | by apply Forall_filter_keep]. }
  destruct (IH (fire tm w) Hf') as (I1 & I2 & I3 & I4 & I5 & I6).
  { by rewrite Hp. }
  rewrite I1, I2, I3, I4, Hp, Hto, Hr, Hs. split_and!; [done..|].
  intros Hle. apply I6. rewrite Hnow. lia.
Qed.

(** Once the one pending debounce timer is due it fires, at its due time,
    and one request is sent. *)
Lemma run_timers_fires k T w tm :
  handles_fresh w → loaded w →
  pending_saves w = [tm] → due tm <= T → now w <= due tm →
  (length (timers w) ≤ k)%nat →
  requests (run_timers k T w) = requests w ++ [due tm]
  ∧ pending_saves (run_timers k T w) = [].
Proof.
  revert w. induction k as [|k IH]; intros w Hf Hl Hp HT Hnow Hk.
  { exfalso. destruct (timers w) eqn:Et; [|simpl in Hk; lia].
    unfold pending_saves in Hp. by rewrite Et in Hp. }
  assert (tm ∈ timers w ∧ action tm = Later) as [Hin Hact].
  { assert (tm ∈ pending_saves w) as Hx by (rewrite Hp; by left).
    unfold pending_saves in Hx. apply list_elem_of_filter in Hx. tauto. }
  simpl. destruct (next_due T (timers w)) as [tm0|] eqn:E.
  2:{ exfalso. apply next_due_None in E. rewrite Forall_forall in E.
      specialize (E _ Hin). lia. }
  apply next_due_Some in E as (Hin0 & HT0 & Hmin).
  assert (length (timers (fire tm0 w)) < length (timers w))%nat as Hlen.
  { destruct (action tm0) eqn:Ea.
    - destruct (fire_later tm0 w Ea Hl) as (_ & -> & _).
      eapply Nat.le_lt_trans; [apply length_filter|].
      eapply length_filter_lt; [exact Hin0|]. intros H. by apply H.
    - destruct (fire_clear_status tm0 w Ea) as (-> & _).
      eapply length_filter_lt; [exact Hin0|]. intros H. by apply H. }
  destruct (action tm0) eqn:Ea.
  - assert (tm0 = tm) as ->.
    { assert (tm0 ∈ pending_saves w) as Hx.
      { unfold pending_saves. by apply list_elem_of_filter. }
      rewrite Hp in Hx. by apply list_elem_of_singleton in Hx. }
    destruct (fire_later tm w Ea Hl) as (Hr & Ht & _ & _).
    destruct (run_timers_idle k T (fire tm w)) as [I1 I2].
    { rewrite (pending_saves_filter _ _ _ Ht).
      rewrite (filter_swap _ (fun x => handle x ≠ handle tm)).
      fold (pending_saves w). rewrite Hp.
      rewrite filter_cons_False by (intros H; by apply H). done. }
    rewrite I1, Hr. split; [|done]. f_equal. f_equal. lia.
  - destruct (fire_clear_status tm0 w Ea) as (Ht & Hr & Hs & Hto & Hnh & Hn).
    assert (pending_saves (fire tm0 w) = [tm]) as Hp'.
    { rewrite (pending_saves_filter _ _ _ Ht). fold (pending_saves w).
      rewrite Hp. rewrite filter_cons_True; [done|].
      intros Heq. destruct Hf as [Hnd _].
      assert (tm = tm0) as -> by (by eapply handle_determines). congruence. }
    destruct (IH (fire tm0 w)) as [I1 I2].
    + destruct Hf as [Hnd Hlt]. unfold handles_fresh. rewrite Ht, Hnh.
      split; [by apply NoDup_handles_filter | by apply Forall_filter_keep].
    + unfold loaded. by rewrite Hs.
    + done.
    + done.
    + rewrite Hn. specialize (Hmin _ Hin HT). lia.
    + lia.
    + by rewrite I1, Hr.
Qed.

(** *** Change signals *)

(** A change signal cancels the pending debounce timer and starts one
    anew. *)
Lemma handleStateChange_restarts w :
  loaded w → handles_fresh w →
  Forall (fun tm => timeout w = JNumber (handle tm)) (pending_saves w) →
  pending_saves (handleStateChange w)
  = [mkTimer (next_handle w) (now w + DEBOUNCE_WAIT) Later]
  ∧ timeout (handleStateChange w) = JNumber (next_handle w)
  ∧ requests (handleStateChange w) = requests w
  ∧ now (handleStateChange w) = now w
  ∧ handles_fresh (handleStateChange w)
  ∧ loaded (handleStateChange w).
Proof.
  intros Hl [Hnd Hlt] Hall.
  assert (state (handleStateChange w) = state w) as Hst
    by apply handleStateChange_state.
  destruct Hl as (wf & Hwf & Hid).
  assert (timers (handleStateChange w)
          = filter (fun tm => timeout w ≠ JNumber (handle tm)) (timers w)
            ++ [mkTimer (next_handle w) (now w + DEBOUNCE_WAIT) Later]) as Ht.
  { unfold handleStateChange, debouncedSave. rewrite Hwf. simpl.
    rewrite clearTimeout_timers. simpl.
    by destruct (timeout w). }
  assert (next_handle (handleStateChange w) = S (next_handle w)) as Hnh.
  { unfold handleStateChange, debouncedSave. rewrite Hwf. simpl.
    by destruct (timeout w). }
  split_and!.
  - unfold pending_saves. rewrite Ht, filter_app, filter_swap.
    fold (pending_saves w). rewrite filter_none; [done|].
    eapply Forall_impl; [exact Hall|]. simpl. intros tm -> H. by apply H.
  - unfold handleStateChange, debouncedSave. rewrite Hwf. simpl.
    by destruct (timeout w).
  - unfold handleStateChange, debouncedSave. rewrite Hwf. simpl.
    by destruct (timeout w).
  - unfold handleStateChange, debouncedSave. rewrite Hwf. simpl.
    by destruct (timeout w).
  - unfold handles_fresh. rewrite Ht, Hnh. split.
    + rewrite map_app. simpl. apply NoDup_app. split_and!.
      * by apply NoDup_handles_filter.
      * intros h Hh ->%list_elem_of_singleton.
        change (map ?f ?x) with (f <$> x) in Hh.
        apply list_elem_of_fmap in Hh as (tm & Hh & [_ Hin]%list_elem_of_filter).
        rewrite Forall_forall in Hlt. specialize (Hlt _ Hin). lia.
      * apply NoDup_singleton.
    + apply Forall_app. split.
      * apply Forall_filter_keep. eapply Forall_impl; [exact Hlt|].
        simpl. intros. lia.
      * constructor; [simpl; lia | constructor].
  - unfold loaded. rewrite Hst. eauto.
Qed.

Lemma advance_quiet T w :
  handles_fresh w →
  Forall (fun tm => T < due tm) (pending_saves w) →
  now w <= T →
  pending_saves (advance T w) = pending_saves w
  ∧ timeout (advance T w) = timeout w
  ∧ requests (advance T w) = requests w
  ∧ state (advance T w) = state w
  ∧ handles_fresh (advance T w)
  ∧ now (advance T w) = T.
Proof.
  intros Hf Hq Hn. unfold advance.
  destruct (run_timers_quiet (length (timers w)) T w Hf Hq)
    as (H1 & H2 & H3 & H4 & H5 & H6).
  split_and!; [done..|]. simpl. specialize (H6 Hn). lia.
Qed.

Lemma signal_restarts t w :
  loaded w → handles_fresh w →
  Forall (fun tm => timeout w = JNumber (handle tm)) (pending_saves w) →
  Forall (fun tm => t < due tm) (pending_saves w) →
  now w <= t →
  ∃ h, pending_saves (signal t w) = [mkTimer h (t + DEBOUNCE_WAIT) Later]
     ∧ timeout (signal t w) = JNumber h
     ∧ requests (signal t w) = requests w
     ∧ now (signal t w) = t
     ∧ handles_fresh (signal t w)
     ∧ loaded (signal t w).
Proof.
  intros Hl Hf Hall Hq Hn.
  destruct (advance_quiet t w Hf Hq Hn) as (A1 & A2 & A3 & A4 & A5 & A6).
  unfold signal.
  destruct (handleStateChange_restarts (advance t w)) as (B1 & B2 & B3 & B4 & B5 & B6).
  - unfold loaded. by rewrite A4.
  - done.
  - by rewrite A1, A2.
  - exists (next_handle (advance t w)).
    rewrite B1, B2, B3, B4, A3, A6. done.
Qed.

Lemma signals_restart ts : ∀ t w,
  loaded w → handles_fresh w →
  Forall (fun tm => timeout w = JNumber (handle tm)) (pending_saves w) →
  Forall (fun tm => t < due tm) (pending_saves w) →
  now w <= t →
  within_window t ts →
  ∃ h, pending_saves (signals (t :: ts) w)
       = [mkTimer h (last_of t ts + DEBOUNCE_WAIT) Later]
     ∧ timeout (signals (t :: ts) w) = JNumber h
     ∧ requests (signals (t :: ts) w) = requests w
     ∧ now (signals (t :: ts) w) = last_of t ts
     ∧ handles_fresh (signals (t :: ts) w)
     ∧ loaded (signals (t :: ts) w).
Proof.
  induction ts as [|t' ts IH]; intros t w Hl Hf Hall Hq Hn Hw.
  - by apply signal_restarts.
  - destruct (signal_restarts t w Hl Hf Hall Hq Hn)
      as (h & S1 & S2 & S3 & S4 & S5 & S6).
    destruct Hw as (Hle & Hlt & Hw).
    destruct (IH t' (signal t w)) as (h' & I1 & I2 & I3 & I4 & I5 & I6).
    + done.
    + done.
    + rewrite S1, S2. by repeat constructor.
    + rewrite S1. repeat constructor. simpl. done.
    + by rewrite S4.
    + done.
    + exists h'. change (signals (t :: t' :: ts) w)
        with (signals (t' :: ts) (signal t w)).
      assert (last_of t (t' :: ts) = last_of t' ts) as ->.
      { unfold last_of. rewrite last_cons. by destruct (last ts). }
      rewrite I1, I2, I3, I4, S3. done.
Qed.

(** C5. From a page with a workflow loaded and no debounce timer pending,
    let change signals come at [t] and then at the times [ts], each less
    than the debounce window after the one before.  Then one debounce timer
    is pending, due one window after the last signal, all earlier ones
    being cancelled; no request is sent while the signals come or before
    that timer is due; and once it is due exactly one request has been
    sent, at its due time, and no debounce timer is left. *)
Theorem C5_debounce_one_save t ts T w :
  loaded w → handles_fresh w → pending_saves w = [] →
  now w <= t → within_window t ts →
  let tN := last_of t ts in
  let w' := signals (t :: ts) w in
  (∃ h, pending_saves w' = [mkTimer h (tN + DEBOUNCE_WAIT) Later])
  ∧ requests w' = requests w
  ∧ (T < tN + DEBOUNCE_WAIT → requests (advance T w') = requests w)
  ∧ (tN + DEBOUNCE_WAIT <= T →
       requests (advance T w') = requests w ++ [tN + DEBOUNCE_WAIT]
       ∧ pending_saves (advance T w') = []).
Proof.
  intros Hl Hf Hp Hn Hw tN w'.
  destruct (signals_restart ts t w) as (h & S1 & S2 & S3 & S4 & S5 & S6);
    [done | done | by rewrite Hp | by rewrite Hp | done | done |].
  fold w' in S1, S2, S3, S4, S5, S6. fold tN in S1, S4.
  split_and!.
  - by exists h.
  - done.
  - intros HT. unfold advance. simpl.
    destruct (run_timers_quiet (length (timers w')) T w' S5) as (_ & _ & R & _).
    { rewrite S1. by repeat constructor. }
    by rewrite R.
  - intros HT. unfold advance. simpl.
    destruct (run_timers_fires (length (timers w')) T w' _ S5 S6 S1)
      as [R P]; simpl; [done | rewrite S4; lia | done |].
    by rewrite R, S3.
Qed.

Lemma C5_debounce_one_save_witness :
  requests (advance 5000 (signals [0; 500; 1200] (fresh_world wf_ab 0)))
  = [3200].
Proof.
  refine (proj1 (proj2 (proj2 (proj2
    (C5_debounce_one_save 0 [500; 1200] 5000 (fresh_world wf_ab 0)
       _ _ _ _ _))) _)).
  - exists wf_ab. split; [reflexivity | discriminate].
  - split; constructor.
  - reflexivity.
  - reflexivity.
  - unfold within_window, DEBOUNCE_WAIT. lia.
  - unfold last_of, DEBOUNCE_WAIT. simpl. lia.
Defined.

(** *** The loop of [advance] runs to its end *)

Lemma saveWorkflow_timers w : timers (saveWorkflow w) = timers w.
Proof.
  unfold saveWorkflow. destruct (currentWorkflow (state w)); [|done].
  by case_bool_decide.
Qed.

Lemma fire_shrinks tm w :
  tm ∈ timers w → (length (timers (fire tm w)) < length (timers w))%nat.
Proof.
  intros Hin. unfold fire.
  set (w1 := set_now _ _).
  assert (length (timers w1) < length (timers w))%nat as Hlt.
  { subst w1. simpl. eapply length_filter_lt; [exact Hin|].
    intros H. by apply H. }
  destruct (action tm); simpl.
  - unfold later. rewrite saveWorkflow_timers, clearTimeout_timers.
    eapply Nat.le_lt_trans; [apply length_filter|]. exact Hlt.
  - unfold clear_status. by case_bool_decide.
Qed.

Lemma run_timers_complete k T w :
  (length (timers w) ≤ k)%nat →
  next_due T (timers (run_timers k T w)) = None.
Proof.
  revert w. induction k as [|k IH]; intros w Hk; simpl.
  - by destruct (timers w); [|simpl in Hk; lia].
  - destruct (next_due T (timers w)) as [tm|] eqn:E; [|done].
    apply IH. apply next_due_Some in E as (Hin & _).
    pose proof (fire_shrinks tm w Hin). lia.
Qed.

(** After [advance T] no pending timer is due by [T]. *)
Lemma advance_complete T w :
  Forall (fun tm => T < due tm) (timers (advance T w)).
Proof.
  unfold advance. simpl. apply next_due_None. by apply run_timers_complete.
Qed.

(** *** The manual save *)

(** C6 (the code against the claim). A change at time 0 schedules the
    debounced save for time 2000.  The save button is pressed at time 1000:
    [saveWorkflow] gives [clearTimeout] the function [debouncedSave], not
    the handle kept in [timeout], so the timer stays pending, and at time
    2000 it fires and a second request is sent. *)
Theorem C6_manual_save_leaves_timer_pending :
  let w1 := handleStateChange (fresh_world wf_ab 0) in
  let w2 := saveWorkflow (advance 1000 w1) in
  let w3 := advance 2000 w2 in
  pending_saves w1 = [mkTimer 1 2000 Later]
  ∧ requests w2 = [1000]
  ∧ pending_saves w2 = [mkTimer 1 2000 Later]
  ∧ requests w3 = [1000; 2000].
Proof. split_and!; by vm_compute. Qed.

(** *** The status timer *)

(** The status timer leaves the message of a failed save in place. *)
Lemma clear_status_keeps_failure w :
  snd (status w) = DangerColor → clear_status w = w.
Proof. intros H. unfold clear_status. by rewrite bool_decide_false by auto. Qed.

(** Any other status is erased, the notice of a change included. *)
Lemma clear_status_erases w :
  snd (status w) ≠ DangerColor →
  status (clear_status w) = ("", SecondaryColor).
Proof. intros H. unfold clear_status. by rewrite bool_decide_true. Qed.

(** C7 (the code against the claim). A save sent and settled at time 0
    starts the status timer for time 4000.  A change at time 3000 shows the
    notice of a change.  At time 4000 the status timer finds a status that
    is not the one of a failure and erases it: the notice is gone although
    the change it announces is still unsaved, its debounce timer pending
    until time 5000. *)
Theorem C7_status_timer_erases_change_notice :
  let w1 := saveWorkflow_settled Ok (saveWorkflow (fresh_world wf_ab 0)) in
  let w2 := signal 3000 w1 in
  let w3 := advance 4000 w2 in
  timers w1 = [mkTimer 1 4000 ClearStatus]
  ∧ status w2 = (MSG_CHANGED, SecondaryColor)
  ∧ status w3 = ("", SecondaryColor)
  ∧ pending_saves w3 = [mkTimer 2 5000 Later]
  ∧ requests w3 = [0].
Proof. split_and!; by vm_compute. Qed.

Lemma C9_shapes_and_highlight_witness :
  filter (fun s => is_highlight s = true) (statements cfg_ghost_entry)
  = [Style "ghost" ENTRY_STYLE].
Proof.
  exact (proj1 (proj2 (proj2 (C9_shapes_and_highlight cfg_ghost_entry)))).
Defined.

(** ** The worked examples of the specification *)

(** Renaming [a] to [start] in the example graph. *)
Example rename_a_to_start :
  config (renameNode 0 "start" wf_ab None).1
  = mkConfig "start" ""
      [mkNode "start" "llm" ""; mkNode "b" "join" ""]
      [mkEdge "start" "b" false].
Proof. reflexivity. Qed.

(** Removing [b] from the example graph. *)
Example remove_b :
  config (removeNode 1 wf_ab None).1
  = mkConfig "a" "" [mkNode "a" "llm" ""] [].
Proof. reflexivity. Qed.

(** The diagram of the example graph, as given to the rendering engine. *)
Example diagram_of_example :
  renderGraph (mkState (Some wf_ab) None)
  = MermaidSource
      ("graph TD" +:+ newline
       +:+ "  a[" +:+ dquote +:+ "a<br/><i>(llm)</i>" +:+ dquote +:+ "]"
       +:+ newline
       +:+ "  b{" +:+ dquote +:+ "b<br/><i>(join)</i>" +:+ dquote +:+ "}"
       +:+ newline
       +:+ "  style a fill:#e9f7ef,stroke:#27ae60,stroke-width:2px"
       +:+ newline +:+ "  a --> b").
Proof. reflexivity. Qed.

(** * Further properties of the editor *)

Import JSObject Handlers Loading Integrity SaveOutcome.

Lemma renderWorkflowName_state w : state (renderWorkflowName w) = state w.
Proof. unfold renderWorkflowName. by destruct (currentWorkflow (state w)). Qed.

Lemma render_page_state w : state (render_page w) = state (render_all w).
Proof.
  unfold render_page, renderWorkflowName.
  by destruct (currentWorkflow (state w)).
Qed.

(** ** Renaming and removing nodes, adding edges *)

Lemma move_key_back oldId newId (m : gmap string string) :
  oldId ≠ newId → m !! newId = None →
  move_key newId oldId (move_key oldId newId m) = m.
Proof.
  intros Hne Hnew. destruct (m !! oldId) as [text|] eqn:Hold.
  - unfold move_key at 1. rewrite (move_key_new _ _ _ text) by done.
    apply map_eq. intros k.
    destruct (decide (k = newId)) as [->|Hk1].
    { by rewrite lookup_delete_eq. }
    rewrite lookup_delete_ne by done.
    destruct (decide (k = oldId)) as [->|Hk2].
    { by rewrite lookup_insert_eq. }
    rewrite lookup_insert_ne by done. by apply move_key_other.
  - rewrite (move_key_absent oldId newId m) by done. by apply move_key_absent.
Qed.

Lemma rename_edge_back oldId newId e :
  edge_source e ≠ newId → edge_target e ≠ newId →
  rename_edge newId oldId (rename_edge oldId newId e) = e.
Proof.
  intros Hs Ht. destruct e as [s t c]. simpl in *.
  unfold rename_edge, rebind. simpl.
  f_equal; repeat case_decide; congruence.
Qed.

(** The rename before the page is rendered again: to an id that nothing
    refers to, and back, it restores the workflow and the selection. *)
Lemma renameNode_there_and_back index newId wf sel node :
  nodes (config wf) !! index = Some node →
  newId ≠ node_id node →
  Forall (fun e => edge_source e ≠ newId ∧ edge_target e ≠ newId)
         (edges (config wf)) →
  entry_point (config wf) ≠ newId →
  prompts wf !! newId = None →
  scripts wf !! newId = None →
  sel ≠ Some newId →
  renameNode index (node_id node)
             (renameNode index newId wf sel).1
             (renameNode index newId wf sel).2
  = (wf, sel).
Proof.
  intros Hn Hne Hedges Hentry Hp Hs Hsel.
  assert (index < length (nodes (config wf)))%nat as Hlt
    by (by eapply lookup_lt_Some).
  unfold renameNode at 2 3. rewrite Hn. simpl.
  unfold renameNode. simpl. rewrite list_lookup_insert_eq by done. simpl.
  destruct wf as [i nm [ep fk ns es] ps ss]. simpl in *.
  f_equal.
  - f_equal.
    + f_equal.
      * unfold rebind. repeat case_decide; congruence.
      * rewrite list_insert_insert_eq. apply list_insert_id.
        rewrite Hn. by destruct node.
      * rewrite map_map. clear -Hedges.
        induction Hedges as [|e l [H1 H2] _ IH]; simpl; [done|].
        by rewrite rename_edge_back, IH.
    + apply move_key_back; auto.
    + apply move_key_back; auto.
  - repeat case_decide; congruence.
Qed.

Lemma node_ids_renamed index newId wf sel node :
  nodes (config wf) !! index = Some node →
  node_ids (renameNode index newId wf sel).1 = <[index := newId]> (node_ids wf).
Proof.
  intros Hn. unfold renameNode, node_ids. rewrite Hn. simpl.
  change (map ?f ?l) with (f <$> l). by rewrite list_fmap_insert.
Qed.

Lemma elem_of_insert_other {A} (l : list A) (i : nat) (x y z : A) :
  l !! i = Some y → x ∈ l → x ≠ y → x ∈ <[i := z]> l.
Proof.
  intros Hy [j Hj]%list_elem_of_lookup Hxy. apply list_elem_of_lookup.
  exists j. rewrite list_lookup_insert_ne; [done|]. intros ->. congruence.
Qed.

Lemma elem_of_insert_new {A} (l : list A) (i : nat) (y z : A) :
  l !! i = Some y → z ∈ <[i := z]> l.
Proof.
  intros Hy. apply list_elem_of_lookup. exists i.
  apply list_lookup_insert_eq. by eapply lookup_lt_Some.
Qed.

(** What the rename keeps, for the proofs further down. *)
Lemma renameNode_integrity index newId wf sel node :
  nodes (config wf) !! index = Some node →
  (edges_resolve wf → edges_resolve (renameNode index newId wf sel).1)
  ∧ (entry_resolves wf → entry_resolves (renameNode index newId wf sel).1)
  ∧ (texts_keyed wf → texts_keyed (renameNode index newId wf sel).1).
Proof.
  intros Hn.
  assert (Hid : node_ids wf !! index = Some (node_id node)).
  { unfold node_ids. change (map ?f ?l) with (f <$> l).
    by rewrite list_lookup_fmap, Hn. }
  assert (Hre : ∀ x, x ∈ node_ids wf →
            rebind (node_id node) newId x ∈ <[index := newId]> (node_ids wf)).
  { intros x Hx. unfold rebind. case_decide as Hd.
    - by eapply elem_of_insert_new.
    - by eapply elem_of_insert_other. }
  unfold edges_resolve, entry_resolves, texts_keyed.
  rewrite (node_ids_renamed _ _ _ _ _ Hn).
  unfold renameNode. rewrite Hn. simpl. split_and!.
  - intros Hall. change (map ?f ?l) with (f <$> l). apply Forall_fmap.
    eapply Forall_impl; [exact Hall|]. intros e [Hs Ht].
    unfold edge_resolves. simpl. split; [by apply Hre|].
    destruct Ht as [Ht|Ht]; [left; by apply Hre|].
    unfold rebind. case_decide; [left; by eapply elem_of_insert_new | by right].
  - intros [He|He].
    + unfold rebind. case_decide; [right; by eapply elem_of_insert_new | by left].
    + right. by apply Hre.
  - assert (Hkeys : ∀ m : gmap string string,
              (∀ k, is_Some (m !! k) → k ∈ node_ids wf) →
              ∀ k, is_Some (move_key (node_id node) newId m !! k) →
                   k ∈ <[index := newId]> (node_ids wf)).
    { intros m Hm k Hk. destruct (decide (k = newId)) as [->|Hk1].
      { by eapply elem_of_insert_new. }
      destruct (decide (k = node_id node)) as [->|Hk2].
      { rewrite move_key_old in Hk by done. by destruct Hk. }
      rewrite move_key_other in Hk by done.
      eapply elem_of_insert_other; eauto. }
    intros [H1 H2]. split; by apply Hkeys.
Qed.

(** The rename keeps what resolved resolving: edges whose ends name
    nodes, an entry point that is empty or names a node, and texts keyed
    by node ids. *)
Theorem rename_keeps_integrity index newId wf sel node :
  nodes (config wf) !! index = Some node →
  (edges_resolve wf → edges_resolve (renameNode index newId wf sel).1)
  ∧ (entry_resolves wf → entry_resolves (renameNode index newId wf sel).1)
  ∧ (texts_keyed wf → texts_keyed (renameNode index newId wf sel).1).
Proof. apply renameNode_integrity. Qed.

Lemma rename_keeps_integrity_witness :
  edges_resolve (renameNode 0 "start" wf_ab None).1.
Proof.
  apply (proj1 (rename_keeps_integrity 0 "start" wf_ab None
                  (mkNode "a" "llm" "") eq_refl)).
  constructor; [|constructor].
  split; [|left]; apply list_elem_of_In; simpl; tauto.
Defined.

Lemma node_ids_removed index wf sel node :
  nodes (config wf) !! index = Some node →
  node_ids (removeNode index wf sel).1 = delete index (node_ids wf).
Proof.
  intros Hn. unfold removeNode, node_ids. rewrite Hn. simpl.
  change (map ?f ?l) with (f <$> l). by rewrite list_fmap_delete.
Qed.

(** What the removal keeps, for the proofs further down. *)
Lemma removeNode_integrity index wf sel node :
  nodes (config wf) !! index = Some node →
  S (length (nodes (config (removeNode index wf sel).1)))
  = length (nodes (config wf))
  ∧ (edges_resolve wf → edges_resolve (removeNode index wf sel).1)
  ∧ (texts_keyed wf → texts_keyed (removeNode index wf sel).1).
Proof.
  intros Hn.
  assert (Hid : node_ids wf !! index = Some (node_id node)).
  { unfold node_ids. change (map ?f ?l) with (f <$> l).
    by rewrite list_lookup_fmap, Hn. }
  unfold edges_resolve, texts_keyed.
  rewrite (node_ids_removed _ _ _ _ Hn).
  unfold removeNode. rewrite Hn. simpl. split_and!.
  - rewrite length_delete by eauto. apply lookup_lt_Some in Hn. lia.
  - intros Hall. apply Forall_forall.
    intros e [[Hs Ht] Hin]%list_elem_of_filter.
    rewrite Forall_forall in Hall. destruct (Hall e Hin) as [Hs' Ht'].
    split; [by eapply elem_of_delete_other|].
    destruct Ht' as [Ht'|Ht']; [left; by eapply elem_of_delete_other | by right].
  - intros [H1 H2]. split; intros k Hk.
    + destruct (decide (k = node_id node)) as [->|Hne].
      { rewrite lookup_delete_eq in Hk. by destruct Hk. }
      rewrite lookup_delete_ne in Hk by done.
      eapply elem_of_delete_other; eauto.
    + destruct (decide (k = node_id node)) as [->|Hne].
      { rewrite lookup_delete_eq in Hk. by destruct Hk. }
      rewrite lookup_delete_ne in Hk by done.
      eapply elem_of_delete_other; eauto.
Qed.

(** Removing a node leaves one node less, and keeps what resolved
    resolving: no remaining edge names a node that is gone, and every
    remaining text is keyed by a remaining node. *)
Theorem remove_keeps_integrity index wf sel node :
  nodes (config wf) !! index = Some node →
  S (length (nodes (config (removeNode index wf sel).1)))
  = length (nodes (config wf))
  ∧ (edges_resolve wf → edges_resolve (removeNode index wf sel).1)
  ∧ (texts_keyed wf → texts_keyed (removeNode index wf sel).1).
Proof. apply removeNode_integrity. Qed.

Lemma remove_keeps_integrity_witness :
  edges_resolve (removeNode 1 wf_ab None).1.
Proof.
  apply (proj1 (proj2 (remove_keeps_integrity 1 wf_ab None
                         (mkNode "b" "join" "") eq_refl))).
  constructor; [|constructor].
  split; [|left]; apply list_elem_of_In; simpl; tauto.
Defined.

(** The edge added by the add-edge button resolves exactly when the
    workflow has a node: the edges all resolve afterwards if and only if
    they did before and there is a node.  The nodes and the texts are not
    touched before the page is rendered again. *)
Lemma addEdge_resolves_iff wf :
  (edges_resolve (addEdge wf) ↔ edges_resolve wf ∧ nodes (config wf) ≠ [])
  ∧ length (edges (config (addEdge wf))) = S (length (edges (config wf)))
  ∧ nodes (config (addEdge wf)) = nodes (config wf)
  ∧ prompts (addEdge wf) = prompts wf
  ∧ scripts (addEdge wf) = scripts wf.
Proof.
  split; [|split_and!; try done; unfold addEdge; simpl;
           rewrite length_app; simpl; lia].
  unfold edges_resolve, addEdge, node_ids. simpl.
  rewrite Forall_app, Forall_singleton. unfold edge_resolves. simpl.
  destruct (nodes (config wf)) as [|n [|m l]]; simpl.
  - split.
    + intros (_ & Hs & _). by apply elem_of_nil in Hs.
    + by intros [_ ?].
  - split; [by intros [? _]|]. intros [? _]. split_and!; [done|by left|by right].
  - split; [by intros [? _]|]. intros [? _]. split_and!; [done|by left|].
    left. right. by left.
Qed.

(** With a workflow loaded the add-edge button always succeeds; the
    edges afterwards are the edges before, in their order, followed by one
    unconditional edge from the first node, or from the empty id where
    there is no node, to the second node, or to [__end__] where there is
    no second node; the nodes and the entry point are as before; and all
    edges resolve afterwards exactly when they did before and the
    workflow has a node. *)
Theorem addEdge_resolves w wf :
  currentWorkflow (state w) = Some wf →
  ∃ w' wf' e, add_edge_click w = Done w'
    ∧ currentWorkflow (state w') = Some wf'
    ∧ edges (config wf') = edges (config wf) ++ [e]
    ∧ edge_source e = from_option node_id "" (nodes (config wf) !! 0%nat)
    ∧ edge_target e
      = from_option node_id END_SENTINEL (nodes (config wf) !! 1%nat)
    ∧ edge_conditional e = false
    ∧ nodes (config wf') = nodes (config wf)
    ∧ entry_point (config wf') = entry_point (config wf)
    ∧ (edges_resolve wf' ↔ edges_resolve wf ∧ nodes (config wf) ≠ []).
Proof.
  intros Hwf. unfold add_edge_click. rewrite Hwf.
  eexists _, _, _. split; [reflexivity|].
  rewrite handleStateChange_state, render_page_state.
  unfold render_all, renderAll. simpl.
  split; [reflexivity|]. rewrite renderEditor_config. simpl.
  split_and!; [reflexivity | | | done | done | done |].
  - simpl. by destruct (nodes (config wf) !! 0%nat).
  - simpl. by destruct (nodes (config wf) !! 1%nat).
  - destruct (addEdge_resolves_iff wf) as [Hiff _]. rewrite <- Hiff.
    unfold edges_resolve, node_ids. by rewrite renderEditor_config.
Qed.

Lemma addEdge_resolves_witness :
  ∃ w' wf', add_edge_click (fresh_world wf_ab 0) = Done w'
    ∧ currentWorkflow (state w') = Some wf'
    ∧ edges (config wf') = [mkEdge "a" "b" false; mkEdge "a" "b" false].
Proof.
  destruct (addEdge_resolves (fresh_world wf_ab 0) wf_ab eq_refl)
    as (w' & wf' & e & H1 & H2 & H3 & H4 & H5 & H6 & _).
  exists w', wf'. split_and!; [done..|]. rewrite H3.
  destruct e as [s t c]. simpl in *. by rewrite H4, H5, H6.
Defined.

(** ** Re-rendering the editor *)

Lemma ensure_text_fix ps n :
  (node_type n = "llm" → is_Some (ps.1 !! node_id n)) →
  (node_type n = "python" → is_Some (ps.2 !! node_id n)) →
  ensure_text ps n = ps.
Proof.
  intros H1 H2. unfold ensure_text.
  destruct (decide (node_type n = "llm")) as [Hl|Hl].
  - rewrite (bool_decide_true _ Hl). destruct (H1 Hl) as [v Hv].
    rewrite bool_decide_false by congruence. simpl.
    rewrite bool_decide_false by congruence. done.
  - rewrite (bool_decide_false _ Hl). simpl.
    destruct (decide (node_type n = "python")) as [Hp|Hp].
    + rewrite (bool_decide_true _ Hp). destruct (H2 Hp) as [v Hv].
      rewrite bool_decide_false by congruence. done.
    + by rewrite (bool_decide_false _ Hp).
Qed.

Lemma ensure_text_present ps n :
  (node_type n = "llm" → is_Some ((ensure_text ps n).1 !! node_id n))
  ∧ (node_type n = "python" → is_Some ((ensure_text ps n).2 !! node_id n)).
Proof.
  unfold ensure_text. split; intros Ht.
  - rewrite (bool_decide_true _ Ht). case_bool_decide as Hn; simpl.
    + rewrite lookup_insert_eq. eauto.
    + rewrite bool_decide_false by congruence. simpl.
      by apply not_eq_None_Some.
  - rewrite bool_decide_false by congruence. simpl.
    rewrite (bool_decide_true _ Ht). case_bool_decide as Hn; simpl.
    + rewrite lookup_insert_eq. eauto.
    + by apply not_eq_None_Some.
Qed.

Lemma ensure_text_origin ps n k v :
  ((ensure_text ps n).1 !! k = Some v →
     ps.1 !! k = Some v ∨ (k = node_id n ∧ v = "" ∧ node_type n = "llm"))
  ∧ ((ensure_text ps n).2 !! k = Some v →
     ps.2 !! k = Some v
     ∨ (k = node_id n ∧ v = default_script ∧ node_type n = "python")).
Proof.
  unfold ensure_text.
  destruct (decide (node_type n = "llm")) as [Hl|Hl].
  - rewrite (bool_decide_true _ Hl). case_bool_decide as Hn; simpl.
    + split; [|by left]. rewrite lookup_insert. case_decide as Hk.
      * intros [= <-]. by right.
      * by left.
    + rewrite bool_decide_false by congruence. simpl. split; by left.
  - rewrite (bool_decide_false _ Hl). simpl.
    destruct (decide (node_type n = "python")) as [Hp|Hp].
    + rewrite (bool_decide_true _ Hp). case_bool_decide as Hn; simpl.
      * split; [by left|]. rewrite lookup_insert. case_decide as Hk.
        -- intros [= <-]. by right.
        -- by left.
      * split; by left.
    + rewrite (bool_decide_false _ Hp). simpl. split; by left.
Qed.

Lemma foldl_ensure_text_present l : ∀ ps n,
  n ∈ l →
  (node_type n = "llm" → is_Some ((foldl ensure_text ps l).1 !! node_id n))
  ∧ (node_type n = "python"
     → is_Some ((foldl ensure_text ps l).2 !! node_id n)).
Proof.
  induction l as [|m l IH]; intros ps n Hin; [by apply elem_of_nil in Hin|].
  simpl. apply elem_of_cons in Hin as [->|Hin]; [|by apply IH].
  destruct (ensure_text_present ps m) as [H1 H2].
  split; intros Ht.
  - destruct (H1 Ht) as [v Hv]. exists v.
    by apply (foldl_ensure_text_keeps l (ensure_text ps m)).
  - destruct (H2 Ht) as [v Hv]. exists v.
    by apply (foldl_ensure_text_keeps l (ensure_text ps m)).
Qed.

Lemma foldl_ensure_text_fix l : ∀ ps,
  Forall (fun n =>
            (node_type n = "llm" → is_Some (ps.1 !! node_id n))
            ∧ (node_type n = "python" → is_Some (ps.2 !! node_id n))) l →
  foldl ensure_text ps l = ps.
Proof.
  induction l as [|m l IH]; intros ps Hall; [done|]. simpl.
  apply Forall_cons in Hall as [[H1 H2] Hall].
  rewrite ensure_text_fix by done. by apply IH.
Qed.

Lemma foldl_ensure_text_origin l : ∀ ps k v,
  ((foldl ensure_text ps l).1 !! k = Some v →
     ps.1 !! k = Some v
     ∨ ∃ n, n ∈ l ∧ k = node_id n ∧ v = "" ∧ node_type n = "llm")
  ∧ ((foldl ensure_text ps l).2 !! k = Some v →
     ps.2 !! k = Some v
     ∨ ∃ n, n ∈ l ∧ k = node_id n ∧ v = default_script
            ∧ node_type n = "python").
Proof.
  induction l as [|m l IH]; intros ps k v; simpl; [split; by left|].
  destruct (IH (ensure_text ps m) k v) as [I1 I2].
  destruct (ensure_text_origin ps m k v) as [O1 O2].
  split; intros H.
  - destruct (I1 H) as [H'|(n & Hn & ?)].
    + destruct (O1 H') as [?|?]; [by left|]. right. exists m. split; [by left|done].
    + right. exists n. split; [by right|done].
  - destruct (I2 H) as [H'|(n & Hn & ?)].
    + destruct (O2 H') as [?|?]; [by left|]. right. exists m. split; [by left|done].
    + right. exists n. split; [by right|done].
Qed.

Lemma editable_iff n :
  editable n = true ↔ node_type n = "llm" ∨ node_type n = "python".
Proof.
  unfold editable. rewrite orb_true_iff, !bool_decide_eq_true. done.
Qed.

(** What re-rendering adds, for the proofs further down. *)
Lemma renderEditor_additions wf sel :
  config (renderEditor wf sel).1 = config wf
  ∧ (∀ k v, prompts wf !! k = Some v → prompts (renderEditor wf sel).1 !! k = Some v)
  ∧ (∀ k v, scripts wf !! k = Some v → scripts (renderEditor wf sel).1 !! k = Some v)
  ∧ (∀ k v, prompts (renderEditor wf sel).1 !! k = Some v →
       prompts wf !! k = Some v
       ∨ ∃ n, n ∈ nodes (config wf) ∧ node_id n = k ∧ node_type n = "llm"
              ∧ v = "")
  ∧ (∀ k v, scripts (renderEditor wf sel).1 !! k = Some v →
       scripts wf !! k = Some v
       ∨ ∃ n, n ∈ nodes (config wf) ∧ node_id n = k ∧ node_type n = "python"
              ∧ v = default_script).
Proof.
  split_and!.
  - apply renderEditor_config.
  - intros k v. apply renderEditor_prompts_keep.
  - intros k v. apply renderEditor_scripts_keep.
  - intros k v. unfold renderEditor.
    destruct (filter _ _) as [|n l] eqn:E; [by left|]. simpl. intros H.
    apply (foldl_ensure_text_origin (n :: l) (prompts wf, scripts wf)) in H
      as [H|(m & Hm & -> & -> & Ht)]; [by left|].
    right. exists m. rewrite <- E in Hm.
    apply list_elem_of_filter in Hm as [_ Hm]. done.
  - intros k v. unfold renderEditor.
    destruct (filter _ _) as [|n l] eqn:E; [by left|]. simpl. intros H.
    apply (foldl_ensure_text_origin (n :: l) (prompts wf, scripts wf)) in H
      as [H|(m & Hm & -> & -> & Ht)]; [by left|].
    right. exists m. rewrite <- E in Hm.
    apply list_elem_of_filter in Hm as [_ Hm]. done.
Qed.

(** Re-rendering never changes the graph nor a text that is there: the
    only entries it adds are the empty prompt of an LLM node and the
    default script of a python node, under the id of that node. *)
Theorem renderEditor_only_adds_defaults wf sel :
  config (renderEditor wf sel).1 = config wf
  ∧ (∀ k v, prompts wf !! k = Some v → prompts (renderEditor wf sel).1 !! k = Some v)
  ∧ (∀ k v, scripts wf !! k = Some v → scripts (renderEditor wf sel).1 !! k = Some v)
  ∧ (∀ k v, prompts (renderEditor wf sel).1 !! k = Some v →
       prompts wf !! k = Some v
       ∨ ∃ n, n ∈ nodes (config wf) ∧ node_id n = k ∧ node_type n = "llm"
              ∧ v = "")
  ∧ (∀ k v, scripts (renderEditor wf sel).1 !! k = Some v →
       scripts wf !! k = Some v
       ∨ ∃ n, n ∈ nodes (config wf) ∧ node_id n = k ∧ node_type n = "python"
              ∧ v = default_script).
Proof. apply renderEditor_additions. Qed.

(** In the model every LLM node has a prompt and every python node a
    script after re-rendering; where a node is editable the selection is
    the id of an editable node, and where none is the model is left as it
    was. *)
Lemma renderEditor_settles wf sel :
  texts_present (renderEditor wf sel).1
  ∧ ((∃ n, n ∈ nodes (config wf) ∧ editable n = true) →
     ∃ n, n ∈ nodes (config wf) ∧ editable n = true
          ∧ (renderEditor wf sel).2 = Some (node_id n))
  ∧ ((∀ n, n ∈ nodes (config wf) → editable n = false) →
     renderEditor wf sel = (wf, sel)).
Proof.
  split_and!.
  - intros n Hn. rewrite renderEditor_config in Hn. unfold renderEditor.
    destruct (filter _ _) as [|m l] eqn:E.
    + assert (editable n = false) as He.
      { destruct (editable n) eqn:He; [|done].
        assert (n ∈ filter (fun n => editable n = true) (nodes (config wf))) as Hf
          by (by apply list_elem_of_filter).
        rewrite E in Hf. by apply elem_of_nil in Hf. }
      apply not_true_iff_false in He. rewrite editable_iff in He.
      simpl. split; intros Ht; exfalso; apply He; auto.
    + simpl.
      assert (editable n = true → n ∈ m :: l) as Hin.
      { intros He. rewrite <- E. by apply list_elem_of_filter. }
      split; intros Ht.
      * apply (foldl_ensure_text_present (m :: l)); [|done].
        apply Hin, editable_iff. by left.
      * apply (foldl_ensure_text_present (m :: l)); [|done].
        apply Hin, editable_iff. by right.
  - intros (n & Hn & He). unfold renderEditor.
    destruct (filter _ _) as [|m l] eqn:E.
    { assert (n ∈ filter (fun n => editable n = true) (nodes (config wf))) as Hf
        by (by apply list_elem_of_filter).
      rewrite E in Hf. by apply elem_of_nil in Hf. }
    cbn [snd].
    assert (∀ x, x ∈ m :: l → x ∈ nodes (config wf) ∧ editable x = true) as Hsub.
    { intros x Hx. rewrite <- E in Hx.
      apply list_elem_of_filter in Hx. tauto. }
    destruct (falsy sel || _) eqn:Hc.
    + exists m. destruct (Hsub m) as [? ?]; [by left|]. done.
    + apply orb_false_iff in Hc as [_ Hc]. apply negb_false_iff in Hc.
      apply existsb_exists in Hc as (x & Hx & Hsel).
      apply bool_decide_eq_true in Hsel. apply list_elem_of_In in Hx.
      exists x. destruct (Hsub x Hx) as [? ?]. done.
  - intros Hnone. unfold renderEditor.
    destruct (filter _ _) as [|m l] eqn:E; [done|].
    assert (m ∈ filter (fun n => editable n = true) (nodes (config wf))) as Hm
      by (rewrite E; by left).
    apply list_elem_of_filter in Hm as [He Hm]. rewrite (Hnone m Hm) in He. done.
Qed.

(** After re-rendering every LLM node whose id is none of the names of
    [Object.prototype] has a prompt, and every such python node a script;
    where a node is editable the selection is the id of an editable node,
    and where none is the model is left as it was. *)
Theorem renderEditor_establishes wf sel :
  (∀ n, n ∈ nodes (config wf) → ¬ inherited_key (node_id n) →
     (node_type n = "llm"
      → is_Some (prompts (renderEditor wf sel).1 !! node_id n))
     ∧ (node_type n = "python"
        → is_Some (scripts (renderEditor wf sel).1 !! node_id n)))
  ∧ ((∃ n, n ∈ nodes (config wf) ∧ editable n = true) →
     ∃ n, n ∈ nodes (config wf) ∧ editable n = true
          ∧ (renderEditor wf sel).2 = Some (node_id n))
  ∧ ((∀ n, n ∈ nodes (config wf) → editable n = false) →
     renderEditor wf sel = (wf, sel)).
Proof.
  destruct (renderEditor_settles wf sel) as (H1 & H2 & H3).
  split_and!; [|done..]. intros n Hn _. apply H1.
  by rewrite renderEditor_config.
Qed.

(** Re-rendering twice is re-rendering once. *)
Theorem renderEditor_idempotent wf sel :
  renderEditor (renderEditor wf sel).1 (renderEditor wf sel).2
  = renderEditor wf sel.
Proof.
  destruct (filter (fun n => editable n = true) (nodes (config wf)))
    as [|m l] eqn:E.
  { assert (renderEditor wf sel = (wf, sel)) as ->
      by (unfold renderEditor; by rewrite E).
    unfold renderEditor. simpl. by rewrite E. }
  set (ps := foldl ensure_text (prompts wf, scripts wf) (m :: l)).
  set (sel' := if falsy sel
                  || negb (existsb (fun n => bool_decide (Some (node_id n) = sel))
                                   (m :: l))
               then Some (node_id m) else sel).
  assert (renderEditor wf sel
          = ({| wf_id := wf_id wf; wf_name := wf_name wf; config := config wf;
                prompts := ps.1; scripts := ps.2 |}, sel')) as Hr
    by (unfold renderEditor; by rewrite E).
  rewrite Hr. unfold renderEditor at 1. cbn [fst snd config prompts scripts
    wf_id wf_name]. rewrite E.
  assert (foldl ensure_text (ps.1, ps.2) (m :: l) = (ps.1, ps.2)) as ->.
  { apply foldl_ensure_text_fix, Forall_forall. intros n Hn.
    by apply (foldl_ensure_text_present (m :: l)). }
  f_equal. subst sel'.
  destruct (falsy sel || _) eqn:Hc.
  - by destruct (falsy (Some (node_id m)) || _).
  - by rewrite Hc.
Qed.

(** Changing the type of a node deletes no text: every prompt and script
    is still there afterwards, under the same key, and the nodes keep
    their ids. *)
Theorem type_change_keeps_texts index value w wf :
  currentWorkflow (state w) = Some wf →
  ∃ w' wf', nodes_list_change NodeTypeSelect index value w = Done w'
    ∧ currentWorkflow (state w') = Some wf'
    ∧ node_ids wf' = node_ids wf
    ∧ edges (config wf') = edges (config wf)
    ∧ (∀ k v, prompts wf !! k = Some v → prompts wf' !! k = Some v)
    ∧ (∀ k v, scripts wf !! k = Some v → scripts wf' !! k = Some v).
Proof.
  intros Hwf. unfold nodes_list_change. rewrite Hwf.
  destruct (nodes (config wf) !! index) as [node|] eqn:Hn.
  - eexists _, _. split; [reflexivity|].
    rewrite handleStateChange_state. unfold render_all, renderAll. simpl.
    split; [reflexivity|]. unfold node_ids. rewrite renderEditor_config. simpl.
    split_and!.
    + change (map ?f ?l) with (f <$> l). rewrite list_fmap_insert. simpl.
      apply list_insert_id. by rewrite list_lookup_fmap, Hn.
    + done.
    + intros k v Hk. by apply renderEditor_prompts_keep.
    + intros k v Hk. by apply renderEditor_scripts_keep.
  - eexists _, _. split; [reflexivity|]. split; [exact Hwf|]. done.
Qed.

Lemma type_change_keeps_texts_witness :
  ∃ w' wf', nodes_list_change NodeTypeSelect 0 "join" (fresh_world wf_ab 0)
            = Done w'
    ∧ currentWorkflow (state w') = Some wf'
    ∧ prompts wf' !! "a" = Some "hello".
Proof.
  destruct (type_change_keeps_texts 0 "join" (fresh_world wf_ab 0) wf_ab eq_refl)
    as (w' & wf' & H1 & H2 & _ & _ & H3 & _).
  exists w', wf'. split_and!; [done..|]. by apply H3.
Defined.

(** ** Editing a text *)

Import TextArea.

Lemma find_by_id (l : list Node) (n : Node) :
  NoDup (map node_id l) → n ∈ l →
  List.find (fun x => bool_decide (node_id x = node_id n)) l = Some n.
Proof.
  induction l as [|x l IH]; simpl; [by intros _ ?%elem_of_nil|].
  intros [Hx Hl]%NoDup_cons [->|Hin]%elem_of_cons.
  - by rewrite bool_decide_true.
  - rewrite bool_decide_false; [by apply IH|].
    intros Heq. apply Hx. rewrite Heq. change (map ?f ?y) with (f <$> y).
    by apply list_elem_of_fmap_2.
Qed.

Lemma assign_stores k v (m : gmap string string) :
  k ≠ "__proto__" → assign k v m = <[k := v]> m.
Proof. intros Hk. unfold assign. by rewrite bool_decide_false. Qed.

(** With distinct node ids, what is typed into the text area goes under
    the id of the selected editable node, unless that id is [__proto__]:
    into the prompts of an LLM node and into the scripts of a python
    node, nothing else changes, and the next rendering shows the text
    area with what was typed. *)
Theorem typed_text_is_stored_and_shown v w wf s n before :
  state w = mkState (Some wf) (Some s) →
  s ≠ "" → s ≠ "__proto__" →
  NoDup (node_ids wf) →
  n ∈ nodes (config wf) → node_id n = s → editable n = true →
  ∃ w' wf', prompt_textarea_input v w = Done w'
    ∧ state w' = mkState (Some wf') (Some s)
    ∧ config wf' = config wf
    ∧ (node_type n = "llm" →
       prompts wf' = <[s := v]> (prompts wf) ∧ scripts wf' = scripts wf)
    ∧ (node_type n = "python" →
       scripts wf' = <[s := v]> (scripts wf) ∧ prompts wf' = prompts wf)
    ∧ textarea_value wf' (Some s) before = Some v.
Proof.
  intros Hst Hs Hproto Hnd Hn Hid He.
  assert (List.find (fun x => bool_decide (node_id x = s)) (nodes (config wf))
          = Some n) as Hfind.
  { rewrite <- Hid. by apply find_by_id. }
  unfold prompt_textarea_input. rewrite Hst. simpl.
  rewrite bool_decide_false by done.
  unfold writeText. rewrite Hfind. rewrite !assign_stores by done.
  eexists _, _. split; [reflexivity|].
  rewrite handleStateChange_state. unfold with_workflow. simpl. rewrite Hst.
  simpl. split; [reflexivity|].
  apply editable_iff in He as Htype.
  set (wf' := if bool_decide (node_type n = "llm") then _ else _).
  assert (config wf' = config wf) as Hcfg.
  { subst wf'. repeat case_bool_decide; done. }
  assert ((node_type n = "llm" → prompts wf' !! s = Some v)
          ∧ (node_type n = "python" → scripts wf' !! s = Some v)) as [Hp Hsc].
  { subst wf'. split; intros Ht.
    - rewrite (bool_decide_true _ Ht). simpl. apply lookup_insert_eq.
    - rewrite bool_decide_false by congruence.
      rewrite (bool_decide_true _ Ht). simpl. apply lookup_insert_eq. }
  split_and!.
  - done.
  - intros Ht. subst wf'. by rewrite (bool_decide_true _ Ht).
  - intros Ht. subst wf'. rewrite bool_decide_false by congruence.
    by rewrite (bool_decide_true _ Ht).
  - unfold textarea_value. rewrite Hcfg.
    assert (n ∈ filter (fun n => editable n = true) (nodes (config wf))) as Hf
      by (by apply list_elem_of_filter).
    assert (renderEditor wf' (Some s)
            = ((renderEditor wf' (Some s)).1, Some s)) as Hsel.
    { unfold renderEditor. rewrite Hcfg.
      destruct (filter _ _) as [|m l] eqn:E; [done|]. cbn [fst snd].
      f_equal. unfold falsy. rewrite bool_decide_false by done.
      replace (existsb _ _) with true; [done|]. symmetry.
      apply existsb_exists. exists n. split; [by apply list_elem_of_In|].
      apply bool_decide_eq_true. by rewrite Hid. }
    destruct (filter _ _) as [|m l] eqn:E; [by apply elem_of_nil in Hf|].
    cbn zeta. rewrite Hsel. cbn [fst snd].
    rewrite bool_decide_false by done.
    assert (List.find (fun x => bool_decide (node_id x = s)) (m :: l) = Some n)
      as ->.
    { rewrite <- Hid. apply find_by_id; [|done]. rewrite <- E.
      eapply sublist_NoDup; [exact Hnd|]. unfold node_ids.
      change (map ?f ?x) with (f <$> x). apply fmap_sublist, sublist_filter. }
    destruct Htype as [Ht|Ht].
    + rewrite (bool_decide_true _ Ht).
      rewrite (bool_decide_false (prompts wf' !! s = None))
        by (rewrite (Hp Ht); done).
      cbn [andb].
      by rewrite (renderEditor_prompts_keep wf' (Some s) s v (Hp Ht)).
    + rewrite bool_decide_false by congruence.
      rewrite (bool_decide_true _ Ht).
      rewrite (bool_decide_false (scripts wf' !! s = None))
        by (rewrite (Hsc Ht); done).
      cbn [andb].
      by rewrite (renderEditor_scripts_keep wf' (Some s) s v (Hsc Ht)).
Qed.

Lemma typed_text_is_stored_and_shown_witness :
  ∃ w', prompt_textarea_input "new text"
          (mkWorld (mkState (Some wf_ab) (Some "a")) "demo" 0 1 []
                   JUndefined ("", SecondaryColor) [] 0)
        = Done w'.
Proof.
  destruct (typed_text_is_stored_and_shown "new text"
              (mkWorld (mkState (Some wf_ab) (Some "a")) "demo" 0 1 []
                       JUndefined ("", SecondaryColor) [] 0)
              wf_ab "a" (mkNode "a" "llm" "") "") as (w' & _ & H & _).
  - reflexivity.
  - discriminate.
  - discriminate.
  - apply (bool_decide_unpack _). reflexivity.
  - by left.
  - reflexivity.
  - reflexivity.
  - exists w'. exact H.
Defined.

(** ** What every handler keeps *)

Lemma texts_keyed_same wf wf' :
  node_ids wf' = node_ids wf → prompts wf' = prompts wf →
  scripts wf' = scripts wf → texts_keyed wf → texts_keyed wf'.
Proof. unfold texts_keyed. by intros -> -> ->. Qed.

Lemma renderEditor_texts_keyed wf sel :
  texts_keyed wf → texts_keyed (renderEditor wf sel).1.
Proof.
  intros [H1 H2].
  destruct (renderEditor_additions wf sel) as (Hc & _ & _ & Hp & Hs).
  assert (∀ n, n ∈ nodes (config wf) → node_id n ∈ node_ids wf) as Hid.
  { intros n Hn. unfold node_ids. change (map ?f ?l) with (f <$> l).
    by apply list_elem_of_fmap_2. }
  unfold texts_keyed, node_ids. rewrite Hc. fold (node_ids wf).
  split; intros k [v Hk].
  - destruct (Hp k v Hk) as [H|(n & Hn & <- & _)]; [apply H1; eauto | by apply Hid].
  - destruct (Hs k v Hk) as [H|(n & Hn & <- & _)]; [apply H2; eauto | by apply Hid].
Qed.

Lemma saveWorkflow_model w :
  selectedPrompt (state (saveWorkflow w)) = selectedPrompt (state w)
  ∧ match currentWorkflow (state w) with
    | None => currentWorkflow (state (saveWorkflow w)) = None
    | Some wf =>
        ∃ wf', currentWorkflow (state (saveWorkflow w)) = Some wf'
             ∧ wf_id wf' = wf_id wf ∧ config wf' = config wf
             ∧ prompts wf' = prompts wf ∧ scripts wf' = scripts wf
    end.
Proof.
  unfold saveWorkflow. destruct (currentWorkflow (state w)) as [wf|] eqn:E.
  - case_bool_decide; simpl.
    + split; [done|]. rewrite E. by exists wf.
    + split; [done|]. by eexists.
  - by rewrite E.
Qed.

(** The model through the scheduler: a save writes the name and nothing
    else. *)
Lemma fire_model tm w :
  selectedPrompt (state (fire tm w)) = selectedPrompt (state w)
  ∧ match currentWorkflow (state w) with
    | None => currentWorkflow (state (fire tm w)) = None
    | Some wf =>
        ∃ wf', currentWorkflow (state (fire tm w)) = Some wf'
             ∧ wf_id wf' = wf_id wf ∧ config wf' = config wf
             ∧ prompts wf' = prompts wf ∧ scripts wf' = scripts wf
    end.
Proof.
  unfold fire. set (w1 := set_now _ _).
  assert (state w1 = state w) as Hs by done.
  destruct (action tm); cbn [run_callback].
  - unfold later.
    destruct (clearTimeout_rest (timeout w1) w1) as (Hst & _).
    pose proof (saveWorkflow_model (clearTimeout (timeout w1) w1)) as M.
    rewrite Hst, Hs in M. exact M.
  - unfold clear_status. case_bool_decide; simpl.
    + split; [done|]. destruct (currentWorkflow (state w)) as [wf|]; [|done].
      by exists wf.
    + split; [done|]. destruct (currentWorkflow (state w)) as [wf|]; [|done].
      by exists wf.
Qed.

Lemma run_timers_model k T : ∀ w,
  selectedPrompt (state (run_timers k T w)) = selectedPrompt (state w)
  ∧ match currentWorkflow (state w) with
    | None => currentWorkflow (state (run_timers k T w)) = None
    | Some wf =>
        ∃ wf', currentWorkflow (state (run_timers k T w)) = Some wf'
             ∧ wf_id wf' = wf_id wf ∧ config wf' = config wf
             ∧ prompts wf' = prompts wf ∧ scripts wf' = scripts wf
    end.
Proof.
  induction k as [|k IH]; intros w; simpl.
  { split; [done|]. destruct (currentWorkflow (state w)) as [wf|]; [|done].
    by exists wf. }
  destruct (next_due T (timers w)) as [tm|].
  2:{ split; [done|]. destruct (currentWorkflow (state w)) as [wf|]; [|done].
      by exists wf. }
  destruct (fire_model tm w) as [F1 F2]. destruct (IH (fire tm w)) as [I1 I2].
  split; [congruence|].
  destruct (currentWorkflow (state w)) as [wf|].
  - destruct F2 as (wf1 & E1 & ? & ? & ? & ?). rewrite E1 in I2.
    destruct I2 as (wf2 & E2 & ? & ? & ? & ?). exists wf2.
    split_and!; congruence.
  - by rewrite F2 in I2.
Qed.

Lemma advance_model T w :
  selectedPrompt (state (advance T w)) = selectedPrompt (state w)
  ∧ match currentWorkflow (state w) with
    | None => currentWorkflow (state (advance T w)) = None
    | Some wf =>
        ∃ wf', currentWorkflow (state (advance T w)) = Some wf'
             ∧ wf_id wf' = wf_id wf ∧ config wf' = config wf
             ∧ prompts wf' = prompts wf ∧ scripts wf' = scripts wf
    end.
Proof. unfold advance. simpl. apply run_timers_model. Qed.

Lemma saveWorkflow_settled_state r w :
  state (saveWorkflow_settled r w) = state w.
Proof. unfold saveWorkflow_settled. destruct (in_flight w), r; done. Qed.

Lemma writeText_keyed sel value wf wf' :
  writeText sel value wf = Some wf' → texts_keyed wf → texts_keyed wf'.
Proof.
  unfold writeText.
  destruct (List.find _ _) as [n|] eqn:E; [|done]. intros [= <-] [H1 H2].
  apply find_some in E as [Hin Hid]. apply bool_decide_eq_true in Hid.
  assert (sel ∈ node_ids wf) as Hsel.
  { rewrite <- Hid. unfold node_ids. change (map ?f ?l) with (f <$> l).
    apply list_elem_of_fmap_2. by apply list_elem_of_In. }
  assert (Hassign : ∀ m : gmap string string,
            (∀ k, is_Some (m !! k) → k ∈ node_ids wf) →
            ∀ k, is_Some (assign sel value m !! k) → k ∈ node_ids wf).
  { intros m Hm k. unfold assign.
    destruct (bool_decide (sel = "__proto__") && bool_decide (m !! sel = None));
      [by apply Hm|].
    destruct (decide (k = sel)) as [->|Hne]; [done|].
    rewrite lookup_insert_ne by done. apply Hm. }
  destruct (bool_decide (node_type n = "llm")).
  - split; [|done]. simpl. by apply Hassign.
  - destruct (bool_decide (node_type n = "python")); [|done].
    split; [done|]. simpl. by apply Hassign.
Qed.

Lemma step_texts_keyed e w wf :
  currentWorkflow (state w) = Some wf → texts_keyed wf →
  ∃ wf', currentWorkflow (state (step w e)) = Some wf' ∧ texts_keyed wf'.
Proof.
  intros Hwf Hk.
  assert (Hrender : ∀ wf1 sel1 (w1 : World),
            texts_keyed wf1 →
            ∃ wf', currentWorkflow
                     (state (handleStateChange
                               (render_all
                                  (set_state {| currentWorkflow := Some wf1;
                                                selectedPrompt := sel1 |} w1))))
                   = Some wf' ∧ texts_keyed wf').
  { intros wf1 sel1 w1 H1. rewrite handleStateChange_state.
    unfold render_all, renderAll. simpl. eexists. split; [reflexivity|].
    by apply renderEditor_texts_keyed. }
  assert (Hplain : ∀ wf1 sel1 (w1 : World),
            texts_keyed wf1 →
            ∃ wf', currentWorkflow
                     (state (handleStateChange
                               (set_state {| currentWorkflow := Some wf1;
                                             selectedPrompt := sel1 |} w1)))
                   = Some wf' ∧ texts_keyed wf').
  { intros wf1 sel1 w1 H1. rewrite handleStateChange_state. simpl. eauto. }
  assert (Hsame : ∃ wf', currentWorkflow (state w) = Some wf' ∧ texts_keyed wf')
    by eauto.
  unfold step. destruct e; simpl.
  - unfold add_node_click_page, add_node_click. rewrite Hwf.
    cbn [name_rendered]. rewrite renderWorkflowName_state. apply Hrender.
    destruct Hk as [H1 H2]. unfold texts_keyed, addNode, node_ids. simpl.
    rewrite map_app. split; intros k Hk'; apply elem_of_app; left; auto.
  - unfold delete_node_click_page, delete_node_click. rewrite Hwf.
    destruct (nodes (config wf) !! index) as [node|] eqn:Hn; [|done].
    cbn [name_rendered]. rewrite renderWorkflowName_state.
    apply Hrender. by eapply removeNode_integrity.
  - unfold nodes_list_change_page, nodes_list_change. rewrite Hwf.
    destruct (nodes (config wf) !! index) as [node|] eqn:Hn; [|done].
    assert (∀ o : outcome,
              (∃ wf', currentWorkflow
                        (state match o with Done w' => w' | TypeError => w end)
                      = Some wf' ∧ texts_keyed wf') →
              ∃ wf', currentWorkflow
                       (state match name_rendered o with
                              | Done w' => w' | TypeError => w end)
                     = Some wf' ∧ texts_keyed wf') as Hnr.
    { intros [w1|]; cbn [name_rendered]; [|done].
      by rewrite renderWorkflowName_state. }
    assert (Hids : ∀ n', node_id n' = node_id node →
              node_ids (with_nodes wf (<[index := n']> (nodes (config wf))))
              = node_ids wf).
    { intros n' Hid. unfold node_ids. simpl.
      change (map ?f ?l) with (f <$> l). rewrite list_fmap_insert, Hid.
      apply list_insert_id. by rewrite list_lookup_fmap, Hn. }
    destruct field.
    + apply Hnr, Hrender. by eapply renameNode_integrity.
    + apply Hnr, Hrender. eapply texts_keyed_same; [by apply Hids|done..].
    + apply Hplain. eapply texts_keyed_same; [by apply Hids|done..].
  - unfold add_edge_click. rewrite Hwf.
    rewrite handleStateChange_state, render_page_state.
    rewrite <- (handleStateChange_state (render_all _)). apply Hrender.
    eapply texts_keyed_same; [..|exact Hk]; done.
  - unfold delete_edge_click. rewrite Hwf.
    rewrite handleStateChange_state, render_page_state.
    rewrite <- (handleStateChange_state (render_all _)). apply Hrender.
    eapply texts_keyed_same; [..|exact Hk]; done.
  - unfold edges_list_change. rewrite Hwf.
    destruct (edges (config wf) !! index); [|done]. apply Hplain.
    eapply texts_keyed_same; [..|exact Hk]; done.
  - unfold entry_point_change. rewrite Hwf. apply Hplain.
    eapply texts_keyed_same; [..|exact Hk]; done.
  - unfold final_output_key_change. rewrite Hwf. apply Hplain.
    eapply texts_keyed_same; [..|exact Hk]; done.
  - unfold prompt_textarea_input.
    destruct (selectedPrompt (state w)) as [sel|]; [|done].
    case_bool_decide; [done|]. rewrite Hwf.
    destruct (writeText sel value wf) as [wf1|] eqn:Hw; [|done].
    apply Hplain. by eapply writeText_keyed.
  - rewrite handleStateChange_state. simpl. eauto.
  - destruct (saveWorkflow_model w) as [_ H]. rewrite Hwf in H.
    destruct H as (wf' & E & _ & Hc & Hp & Hs). exists wf'. split; [done|].
    eapply texts_keyed_same; [..|exact Hk]; [|done..].
    unfold node_ids. by rewrite Hc.
  - rewrite saveWorkflow_settled_state. eauto.
  - destruct (advance_model T w) as [_ H]. rewrite Hwf in H.
    destruct H as (wf' & E & _ & Hc & Hp & Hs). exists wf'. split; [done|].
    eapply texts_keyed_same; [..|exact Hk]; [|done..].
    unfold node_ids. by rewrite Hc.
Qed.

(** Whatever the user does and whatever timer fires, a workflow stays
    loaded, and if every prompt and script was keyed by the id of a node
    then every prompt and script still is. *)
Theorem texts_stay_keyed es : ∀ w wf,
  currentWorkflow (state w) = Some wf → texts_keyed wf →
  ∃ wf', currentWorkflow (state (run es w)) = Some wf' ∧ texts_keyed wf'.
Proof.
  induction es as [|e es IH]; intros w wf Hwf Hk; [eauto|].
  destruct (step_texts_keyed e w wf Hwf Hk) as (wf1 & H1 & K1).
  exact (IH (step w e) wf1 H1 K1).
Qed.

Lemma texts_keyed_example : texts_keyed wf_ab.
Proof.
  split; intros k [v Hk]; simpl in Hk.
  - destruct (decide (k = "a")) as [->|Hne].
    + apply list_elem_of_In. simpl. tauto.
    + rewrite lookup_insert_ne in Hk by done. by rewrite lookup_empty in Hk.
  - by rewrite lookup_empty in Hk.
Qed.

Lemma texts_stay_keyed_witness :
  ∃ wf', currentWorkflow
           (state (run [AddNodeClick; DeleteNodeClick 0; TimePasses 5000]
                       (fresh_world wf_ab 0)))
         = Some wf'
       ∧ texts_keyed wf'.
Proof.
  exact (texts_stay_keyed [AddNodeClick; DeleteNodeClick 0; TimePasses 5000]
           (fresh_world wf_ab 0) wf_ab eq_refl texts_keyed_example).
Defined.

(** ** The status line and the guard of the save *)

Lemma fire_clear_status_status tm w :
  action tm = ClearStatus →
  status (fire tm w)
  = if bool_decide (snd (status w) ≠ DangerColor) then ("", SecondaryColor)
    else status w.
Proof.
  intros Ha. unfold fire. rewrite Ha. simpl. unfold clear_status. simpl.
  by case_bool_decide.
Qed.

Lemma pending_saves_fire_clear tm w :
  action tm = ClearStatus → pending_saves w = [] →
  pending_saves (fire tm w) = [].
Proof.
  intros Ha Hp. destruct (fire_clear_status tm w Ha) as (Ht & _).
  rewrite (pending_saves_filter _ _ _ Ht). fold (pending_saves w).
  by rewrite Hp.
Qed.

Lemma next_due_idle T w tm :
  pending_saves w = [] → next_due T (timers w) = Some tm →
  action tm = ClearStatus.
Proof.
  intros Hp (Hin & _)%next_due_Some.
  destruct (action tm) eqn:Ea; [|done]. exfalso.
  eapply (filter_nil_not_elem_of _ _ _ Hp); [|exact Hin]. done.
Qed.

Lemma run_timers_failure k T : ∀ w,
  pending_saves w = [] → snd (status w) = DangerColor →
  status (run_timers k T w) = status w.
Proof.
  induction k as [|k IH]; intros w Hp Hd; simpl; [done|].
  destruct (next_due T (timers w)) as [tm|] eqn:E; [|done].
  pose proof (next_due_idle T w tm Hp E) as Ha.
  pose proof (fire_clear_status_status tm w Ha) as Hs.
  rewrite bool_decide_false in Hs by auto.
  rewrite IH; [done| by apply pending_saves_fire_clear | by rewrite Hs].
Qed.

(** The message of a failed save stays on the status line however long
    the page is left alone: no status timer erases it. *)
Theorem failure_message_stays T w :
  pending_saves w = [] → snd (status w) = DangerColor →
  status (advance T w) = status w.
Proof. intros Hp Hd. unfold advance. simpl. by apply run_timers_failure. Qed.

Lemma failure_message_stays_witness :
  status (advance 100000
            (saveWorkflow_settled (Failed "offline")
               (saveWorkflow (fresh_world wf_ab 0))))
  = (MSG_FAILED "offline", DangerColor).
Proof.
  exact (failure_message_stays 100000
           (saveWorkflow_settled (Failed "offline")
              (saveWorkflow (fresh_world wf_ab 0))) eq_refl eq_refl).
Defined.




(** With no workflow current and the name changed, a save that the server
    accepted ends on the red message of a failure. *)
Lemma saveWorkflow_resumed_without_workflow w :
  currentWorkflow (state w) = None → in_flight w ≠ 0%nat →
  status (saveWorkflow_resumed true Ok w) = (MSG_FAILED MSG_NULL_ID, DangerColor).
Proof.
  intros H Hf. unfold saveWorkflow_resumed.
  destruct (in_flight w); [done|]. simpl. by rewrite H.
Qed.



Lemma fire_without_workflow tm w :
  currentWorkflow (state w) = None →
  requests (fire tm w) = requests w ∧ currentWorkflow (state (fire tm w)) = None.
Proof.
  intros Hn. unfold fire. set (w1 := set_now _ _).
  assert (state w1 = state w ∧ requests w1 = requests w) as [Hs Hr] by done.
  destruct (action tm); cbn [run_callback].
  - unfold later.
    destruct (clearTimeout_rest (timeout w1) w1) as (Hst & _ & _ & _ & Hrq & _).
    unfold saveWorkflow. rewrite Hst, Hs, Hn, Hrq, Hst, Hs. done.
  - unfold clear_status. case_bool_decide; simpl; by rewrite ?Hn.
Qed.

Lemma run_timers_without_workflow k T : ∀ w,
  currentWorkflow (state w) = None →
  requests (run_timers k T w) = requests w
  ∧ currentWorkflow (state (run_timers k T w)) = None.
Proof.
  induction k as [|k IH]; intros w Hn; simpl; [done|].
  destruct (next_due T (timers w)) as [tm|]; [|done].
  destruct (fire_without_workflow tm w Hn) as [F1 F2].
  destruct (IH (fire tm w) F2) as [I1 I2]. split; congruence.
Qed.

(** Without a current workflow nothing is saved: a change starts no
    timer, the save button sends nothing, and a debounce timer left over
    from before fires without sending a request. *)
Theorem nothing_saved_without_workflow T w :
  currentWorkflow (state w) = None →
  handleStateChange w = w
  ∧ saveWorkflow w = w
  ∧ requests (advance T w) = requests w
  ∧ currentWorkflow (state (advance T w)) = None.
Proof.
  intros Hn. split_and!.
  - unfold handleStateChange. by rewrite Hn.
  - unfold saveWorkflow. by rewrite Hn.
  - unfold advance. simpl. by apply run_timers_without_workflow.
  - unfold advance. simpl. by apply run_timers_without_workflow.
Qed.

Lemma nothing_saved_without_workflow_witness :
  requests (advance 5000
              (showEmptyState (handleStateChange (fresh_world wf_ab 0))))
  = [].
Proof.
  exact (proj1 (proj2 (proj2
    (nothing_saved_without_workflow 5000
       (showEmptyState (handleStateChange (fresh_world wf_ab 0))) eq_refl)))).
Defined.

(** A save by the button while a debounced save is pending sends its
    request at once and leaves the timer alone: when the timer is due a
    second request follows. *)
Theorem manual_save_then_debounced_save T w tm :
  loaded w → handles_fresh w → pending_saves w = [tm] →
  now w <= due tm → due tm <= T →
  requests (saveWorkflow w) = requests w ++ [now w]
  ∧ pending_saves (saveWorkflow w) = [tm]
  ∧ requests (advance T (saveWorkflow w)) = requests w ++ [now w; due tm].
Proof.
  intros Hl Hf Hp Hn HT.
  destruct (saveWorkflow_loaded w Hl) as (Hr & Ht & Hnow & Hl1).
  assert (next_handle (saveWorkflow w) = next_handle w) as Hnh.
  { destruct Hl as (wf & Hwf & Hid). unfold saveWorkflow. rewrite Hwf.
    by rewrite bool_decide_false. }
  assert (pending_saves (saveWorkflow w) = [tm]) as Hp1
    by (unfold pending_saves; by rewrite Ht).
  assert (handles_fresh (saveWorkflow w)) as Hf1
    by (unfold handles_fresh; by rewrite Ht, Hnh).
  split_and!; [done..|]. unfold advance. simpl.
  destruct (run_timers_fires (length (timers (saveWorkflow w))) T
              (saveWorkflow w) tm Hf1 Hl1 Hp1 HT) as [R _];
    [by rewrite Hnow | done |].
  rewrite R, Hr, <- app_assoc. done.
Qed.

Lemma manual_save_then_debounced_save_witness :
  requests (advance 2000
              (saveWorkflow (advance 1000 (handleStateChange (fresh_world wf_ab 0)))))
  = [1000; 2000].
Proof.
  refine (proj2 (proj2
    (manual_save_then_debounced_save 2000
       (advance 1000 (handleStateChange (fresh_world wf_ab 0)))
       (mkTimer 1 2000 Later) _ _ _ _ _))).
  - exists wf_ab. split; [reflexivity | discriminate].
  - split; [apply (bool_decide_unpack _); reflexivity|].
    repeat constructor.
  - reflexivity.
  - simpl. lia.
  - simpl. lia.
Defined.

(** ** Loading a workflow *)

(** Loading a workflow does not cancel the debounced save that an edit of
    the workflow shown before has scheduled: the timer stays pending, and
    when it is due one request is sent, the workflow then current being
    the loaded one. *)
Theorem loading_keeps_pending_autosave T workflowId data w tm :
  workflowId ≠ "" → handles_fresh w → pending_saves w = [tm] →
  now w <= due tm → due tm <= T →
  pending_saves (loadWorkflowDetail_arrived workflowId data w) = [tm]
  ∧ requests (advance T (loadWorkflowDetail_arrived workflowId data w))
    = requests w ++ [due tm]
  ∧ ∃ wf', currentWorkflow
             (state (advance T (loadWorkflowDetail_arrived workflowId data w)))
           = Some wf'
         ∧ wf_id wf' = workflowId ∧ config wf' = config data.
Proof.
  intros Hid Hf Hp Hn HT.
  set (w1 := loadWorkflowDetail_arrived workflowId data w).
  set (wf0 := {| wf_id := workflowId; wf_name := wf_name data;
                 config := config data; prompts := prompts data;
                 scripts := scripts data |}).
  assert (currentWorkflow (state w1) = Some (renderEditor wf0 None).1) as Hcur
    by done.
  assert (wf_id (renderEditor wf0 None).1 = workflowId) as Hwid.
  { unfold renderEditor. by destruct (filter _ _). }
  assert (loaded w1) as Hl1.
  { eexists. split; [exact Hcur|]. by rewrite Hwid. }
  assert (timers w1 = timers w ∧ next_handle w1 = next_handle w
          ∧ now w1 = now w ∧ requests w1 = requests w) as (Ht & Hnh & Hnow & Hr)
    by done.
  assert (pending_saves w1 = [tm]) as Hp1
    by (unfold pending_saves; by rewrite Ht).
  assert (handles_fresh w1) as Hf1
    by (unfold handles_fresh; by rewrite Ht, Hnh).
  split_and!.
  - done.
  - change (requests (advance T w1))
      with (requests (run_timers (length (timers w1)) T w1)).
    destruct (run_timers_fires (length (timers w1)) T w1 tm Hf1 Hl1 Hp1 HT)
      as [R _]; [by rewrite Hnow | done |]. by rewrite R, Hr.
  - destruct (advance_model T w1) as [_ H]. rewrite Hcur in H.
    destruct H as (wf' & E & Hi & Hc & _). exists wf'.
    split_and!; [done | congruence |].
    rewrite Hc. by rewrite (renderEditor_config wf0 None).
Qed.

Lemma loading_keeps_pending_autosave_witness :
  requests (advance 2000
              (loadWorkflowDetail_arrived "w2" wf_two_prompts
                 (handleStateChange (fresh_world wf_ab 0))))
  = [2000].
Proof.
  refine (proj1 (proj2
    (loading_keeps_pending_autosave 2000 "w2" wf_two_prompts
       (handleStateChange (fresh_world wf_ab 0)) (mkTimer 1 2000 Later)
       _ _ _ _ _))).
  - discriminate.
  - split; [apply (bool_decide_unpack _); reflexivity|]. repeat constructor.
  - reflexivity.
  - simpl. lia.
  - simpl. lia.
Defined.

(** The workflow that [loadWorkflows] picks is one of the list: the
    current one where the list still has it, the first of the list
    otherwise, and none only for the empty list. *)
Theorem idToLoad_picks_from_list workflows current :
  (idToLoad workflows current = None ↔ workflows = [])
  ∧ (∀ i, idToLoad workflows current = Some i →
          i ∈ map summary_id workflows)
  ∧ (∀ wf, current = Some wf → wf_id wf ∈ map summary_id workflows →
           idToLoad workflows current = Some (wf_id wf))
  ∧ (∀ first rest, workflows = first :: rest →
       (∀ wf, current = Some wf → wf_id wf ∉ map summary_id workflows) →
       idToLoad workflows current = Some (summary_id first)).
Proof.
  assert (Hex : ∀ cid l,
            existsb (fun s => bool_decide (Some (summary_id s) = cid)) l = true
            ↔ ∃ i, cid = Some i ∧ i ∈ map summary_id l).
  { intros cid l. rewrite existsb_exists. split.
    - intros (s & Hin & Hs). apply bool_decide_eq_true in Hs.
      exists (summary_id s). split; [done|].
      change (map ?f ?x) with (f <$> x). apply list_elem_of_fmap_2.
      by apply list_elem_of_In.
    - intros (i & -> & Hi). change (map ?f ?x) with (f <$> x) in Hi.
      apply list_elem_of_fmap in Hi as (s & -> & Hs). exists s.
      split; [by apply list_elem_of_In | by apply bool_decide_eq_true]. }
  unfold idToLoad. destruct workflows as [|first rest].
  { split_and!; [done | done | | done].
    intros wf _ Hin. by apply elem_of_nil in Hin. }
  cbn zeta. set (l := first :: rest) in *.
  destruct (existsb _ l) eqn:E.
  - apply Hex in E as (i & Hi & Hin). split_and!.
    + split; [|done]. rewrite Hi. done.
    + intros j. rewrite Hi. by intros [= <-].
    + intros wf -> _. done.
    + intros f r _ Hno. exfalso. destruct current as [wf|]; [|done].
      simpl in Hi. injection Hi as <-. by apply (Hno wf).
  - split_and!.
    + done.
    + intros i [= <-]. subst l. simpl. by left.
    + intros wf -> Hin. exfalso. apply not_true_iff_false in E. apply E.
      apply Hex. by exists (wf_id wf).
    + intros f r [= <- <-] _. done.
Qed.

(** ** The text of the diagram *)

Lemma escape_quotes_id s : has_dquote s = false → escape_quotes s = s.
Proof.
  induction s as [|c s IH]; simpl; [done|].
  intros [Hc Hs]%orb_false_iff. rewrite Hc. by rewrite IH.
Qed.

(** A string comes out of the escaping as it went in exactly when it
    holds no double quote, and it never comes out with one. *)
Theorem escape_quotes_fixes_clean_strings s :
  (escape_quotes s = s ↔ has_dquote s = false)
  ∧ has_dquote (escape_quotes s) = false.
Proof.
  split; [|apply escape_quotes_clean]. split.
  - intros H. rewrite <- H. apply escape_quotes_clean.
  - apply escape_quotes_id.
Qed.

(** No statement of the diagram but the highlight of the entry point has
    a raw double quote where an identifier stands: not the shape of a
    node, not the style of a python node, not an end of an edge. *)
Theorem identifiers_are_escaped cfg :
  Forall (fun s =>
            is_highlight s = false →
            match s with
            | Shape nodeId _ _ => has_dquote nodeId = false
            | Style target _ => has_dquote target = false
            | Connector source _ target =>
                has_dquote source = false ∧ has_dquote target = false
            end) (statements cfg).
Proof.
  unfold statements. rewrite !Forall_app. split_and!.
  - induction (nodes cfg) as [|n l IH]; simpl; [constructor|].
    apply Forall_app. split; [|done]. unfold node_statements.
    repeat case_bool_decide; repeat constructor;
      intros _; apply escape_quotes_clean.
  - unfold entry_statements. case_bool_decide; repeat constructor.
    unfold is_highlight. by rewrite bool_decide_true.
  - induction (edges cfg) as [|e l IH]; simpl; constructor; [|done].
    intros _. split; apply escape_quotes_clean.
Qed.

(** The diagram has its heading, one line for each node and one more
    for each python node, the highlight where the entry point is not
    empty, and one line for each edge; the edge lines are those of the
    edges, in their order. *)
Theorem diagram_lines cfg :
  length (graphDefinition cfg)
  = (1 + length (nodes cfg)
     + length (filter (fun n => node_type n = "python") (nodes cfg))
     + (if decide (entry_point cfg = "") then 0 else 1)
     + length (edges cfg))%nat
  ∧ filter (fun s => match s with Connector _ _ _ => true | _ => false end = true)
           (statements cfg)
    = map edge_statement (edges cfg).
Proof.
  assert (Hn : ∀ l,
            length (flat_map node_statements l)
            = (length l + length (filter (fun n => node_type n = "python") l))%nat
            ∧ filter (fun s => match s with Connector _ _ _ => true | _ => false end = true)
                     (flat_map node_statements l) = []).
  { induction l as [|n l [IH1 IH2]]; simpl; [done|].
    rewrite length_app, filter_app, IH1, IH2. unfold node_statements.
    destruct (decide (node_type n = "python")) as [Hp|Hp].
    - rewrite (bool_decide_true _ Hp), filter_cons_True by done. simpl.
      split; [lia|done].
    - rewrite (bool_decide_false _ Hp), filter_cons_False by done.
      case_bool_decide; simpl; split; done || lia. }
  destruct (Hn (nodes cfg)) as [Hlen Hnone].
  unfold graphDefinition, statements. simpl.
  rewrite length_map, !length_app, length_map, Hlen, !filter_app, Hnone.
  rewrite entry_statements_cases. split.
  - case_decide; simpl; lia.
  - replace (filter _ (if decide (entry_point cfg = "") then [] else _))
      with (@nil statement) by (by case_decide).
    simpl. induction (edges cfg) as [|e l IH]; simpl; [done|].
    rewrite filter_cons_True by done. by rewrite IH.
Qed.

(** ** Edges through the node operations *)

Import EventKinds.

Lemma edges_resolve_same wf wf' :
  node_ids wf' = node_ids wf → edges (config wf') = edges (config wf) →
  edges_resolve wf → edges_resolve wf'.
Proof. unfold edges_resolve. by intros -> ->. Qed.

Lemma step_edges_resolve e w wf :
  writes_no_edge_end e = true →
  currentWorkflow (state w) = Some wf → edges_resolve wf →
  ∃ wf', currentWorkflow (state (step w e)) = Some wf' ∧ edges_resolve wf'.
Proof.
  intros He Hwf Hk.
  assert (Hre : ∀ wf1 sel1, edges_resolve wf1 →
            edges_resolve (renderEditor wf1 sel1).1).
  { intros wf1 sel1. unfold edges_resolve, node_ids.
    by rewrite renderEditor_config. }
  assert (Hrender : ∀ wf1 sel1 (w1 : World),
            edges_resolve wf1 →
            ∃ wf', currentWorkflow
                     (state (handleStateChange
                               (render_all
                                  (set_state {| currentWorkflow := Some wf1;
                                                selectedPrompt := sel1 |} w1))))
                   = Some wf' ∧ edges_resolve wf').
  { intros wf1 sel1 w1 H1. rewrite handleStateChange_state.
    unfold render_all, renderAll. simpl. eexists. split; [reflexivity|].
    by apply Hre. }
  assert (Hplain : ∀ wf1 sel1 (w1 : World),
            edges_resolve wf1 →
            ∃ wf', currentWorkflow
                     (state (handleStateChange
                               (set_state {| currentWorkflow := Some wf1;
                                             selectedPrompt := sel1 |} w1)))
                   = Some wf' ∧ edges_resolve wf').
  { intros wf1 sel1 w1 H1. rewrite handleStateChange_state. simpl. eauto. }
  unfold step. destruct e; simpl; try discriminate He.
  - unfold add_node_click_page, add_node_click. rewrite Hwf.
    cbn [name_rendered]. rewrite renderWorkflowName_state. apply Hrender.
    unfold edges_resolve, addNode, node_ids. simpl. rewrite map_app.
    eapply Forall_impl; [exact Hk|]. intros e [Hs Ht]. split.
    + apply elem_of_app. by left.
    + destruct Ht as [Ht|Ht]; [left; apply elem_of_app; by left | by right].
  - unfold delete_node_click_page, delete_node_click. rewrite Hwf.
    destruct (nodes (config wf) !! index) as [node|] eqn:Hn; [|eauto].
    cbn [name_rendered]. rewrite renderWorkflowName_state.
    apply Hrender. by eapply removeNode_integrity.
  - unfold nodes_list_change_page, nodes_list_change. rewrite Hwf.
    destruct (nodes (config wf) !! index) as [node|] eqn:Hn; [|eauto].
    assert (∀ o : outcome,
              (∃ wf', currentWorkflow
                        (state match o with Done w' => w' | TypeError => w end)
                      = Some wf' ∧ edges_resolve wf') →
              ∃ wf', currentWorkflow
                       (state match name_rendered o with
                              | Done w' => w' | TypeError => w end)
                     = Some wf' ∧ edges_resolve wf') as Hnr.
    { intros [w1|]; cbn [name_rendered]; [|done].
      by rewrite renderWorkflowName_state. }
    assert (Hids : ∀ n', node_id n' = node_id node →
              node_ids (with_nodes wf (<[index := n']> (nodes (config wf))))
              = node_ids wf).
    { intros n' Hid. unfold node_ids. simpl.
      change (map ?f ?l) with (f <$> l). rewrite list_fmap_insert, Hid.
      apply list_insert_id. by rewrite list_lookup_fmap, Hn. }
    destruct field.
    + apply Hnr, Hrender. by eapply renameNode_integrity.
    + apply Hnr, Hrender. eapply edges_resolve_same; [by apply Hids|done..].
    + apply Hplain. eapply edges_resolve_same; [by apply Hids|done..].
  - unfold delete_edge_click. rewrite Hwf.
    rewrite handleStateChange_state, render_page_state.
    rewrite <- (handleStateChange_state (render_all _)). apply Hrender.
    unfold edges_resolve, node_ids. simpl. fold (node_ids wf).
    by apply Forall_delete.
  - destruct field; try discriminate He.
    unfold edges_list_change. rewrite Hwf.
    destruct (edges (config wf) !! index) as [edge|] eqn:Hedge; [|eauto].
    apply Hplain. unfold edges_resolve, node_ids. simpl. fold (node_ids wf).
    apply Forall_insert; [exact Hk|].
    unfold edges_resolve in Hk. rewrite Forall_lookup in Hk.
    exact (Hk _ _ Hedge).
  - unfold entry_point_change. rewrite Hwf. apply Hplain.
    eapply edges_resolve_same; [..|exact Hk]; done.
  - unfold final_output_key_change. rewrite Hwf. apply Hplain.
    eapply edges_resolve_same; [..|exact Hk]; done.
  - unfold prompt_textarea_input.
    destruct (selectedPrompt (state w)) as [sel|]; [|eauto].
    case_bool_decide; [eauto|]. rewrite Hwf.
    destruct (writeText sel value wf) as [wf1|] eqn:Hw; [|eauto].
    apply Hplain. unfold writeText in Hw.
    destruct (List.find _ _); [|done]. injection Hw as <-.
    repeat case_bool_decide; done.
  - rewrite handleStateChange_state. simpl. eauto.
  - destruct (saveWorkflow_model w) as [_ H]. rewrite Hwf in H.
    destruct H as (wf' & E & _ & Hc & _). exists wf'. split; [done|].
    unfold edges_resolve, node_ids. by rewrite Hc.
  - rewrite saveWorkflow_settled_state. eauto.
  - destruct (advance_model T w) as [_ H]. rewrite Hwf in H.
    destruct H as (wf' & E & _ & Hc & _). exists wf'. split; [done|].
    unfold edges_resolve, node_ids. by rewrite Hc.
Qed.

(** Through every sequence of events that writes no end of an edge from
    the page (adding, removing, renaming and retyping nodes, removing
    edges, editing texts, saving, time passing) edges that resolve keep
    resolving: no such event leaves an edge naming a node that is not
    there. *)
Theorem edges_stay_resolved es : ∀ w wf,
  Forall (fun e => writes_no_edge_end e = true) es →
  currentWorkflow (state w) = Some wf → edges_resolve wf →
  ∃ wf', currentWorkflow (state (run es w)) = Some wf' ∧ edges_resolve wf'.
Proof.
  induction es as [|e es IH]; intros w wf Hes Hwf Hk; [eauto|].
  apply Forall_cons in Hes as [He Hes].
  destruct (step_edges_resolve e w wf He Hwf Hk) as (wf1 & H1 & K1).
  exact (IH (step w e) wf1 Hes H1 K1).
Qed.

Lemma edges_resolve_example : edges_resolve wf_ab.
Proof.
  constructor; [|constructor].
  split; [|left]; apply list_elem_of_In; simpl; tauto.
Qed.

Lemma edges_stay_resolved_witness :
  ∃ wf', currentWorkflow
           (state (run [NodesListChange NodeIdInput 0 "start";
                        DeleteNodeClick 1; AddNodeClick]
                       (fresh_world wf_ab 0)))
         = Some wf'
       ∧ edges_resolve wf'.
Proof.
  refine (edges_stay_resolved _ (fresh_world wf_ab 0) wf_ab _ eq_refl
            edges_resolve_example).
  repeat constructor.
Defined.

(** ** The name field *)








(** ** The delete button of a node row, with the render that follows *)

Lemma renderEditor_unselected wf :
  (renderEditor wf None).2
  = option_map node_id
      (head (filter (fun n => editable n = true) (nodes (config wf)))).
Proof. unfold renderEditor. by destruct (filter _ _). Qed.

(** C2 (amended). The delete button of row [index], whose node has the id
    [A], with the render that ends the handler: the node leaves the list;
    the edges are the former edges without those whose source or target is
    [A], in their order; a prompt or script under [A] afterwards can only
    be the default that the render creates for another node of the id [A],
    so with no such node neither map holds the key [A]; no text under
    another key is lost; the selection, if it was [A], moves to the first
    editable node that remains, or is cleared where none remains.
    [entry_point] is left as it was: the invariant that it is empty or
    names a present node is kept when it was not [A]. *)
Theorem C2_delete_node_cascade index w wf node :
  currentWorkflow (state w) = Some wf →
  nodes (config wf) !! index = Some node →
  let A := node_id node in
  ∃ w' wf', delete_node_click index w = Done w'
    ∧ currentWorkflow (state w') = Some wf'
    ∧ nodes (config wf') = delete index (nodes (config wf))
    ∧ edges (config wf')
      = filter (fun e => edge_source e ≠ A ∧ edge_target e ≠ A)
               (edges (config wf))
    ∧ (∀ v, prompts wf' !! A = Some v →
         v = "" ∧ ∃ n, n ∈ nodes (config wf') ∧ node_id n = A
                       ∧ node_type n = "llm")
    ∧ (∀ v, scripts wf' !! A = Some v →
         v = default_script ∧ ∃ n, n ∈ nodes (config wf') ∧ node_id n = A
                                   ∧ node_type n = "python")
    ∧ (A ∉ node_ids wf' → prompts wf' !! A = None ∧ scripts wf' !! A = None)
    ∧ (∀ k v, k ≠ A → prompts wf !! k = Some v → prompts wf' !! k = Some v)
    ∧ (∀ k v, k ≠ A → scripts wf !! k = Some v → scripts wf' !! k = Some v)
    ∧ (selectedPrompt (state w) = Some A →
       selectedPrompt (state w')
       = option_map node_id
           (head (filter (fun n => editable n = true) (nodes (config wf')))))
    ∧ entry_point (config wf') = entry_point (config wf)
    ∧ (entry_point (config wf) ≠ A →
       entry_point (config wf) = "" ∨ entry_point (config wf) ∈ node_ids wf →
       entry_point (config wf') = "" ∨ entry_point (config wf') ∈ node_ids wf').
Proof.
  intros Hwf Hn A. unfold delete_node_click. rewrite Hwf, Hn.
  set (sel := selectedPrompt (state w)).
  set (r := removeNode index wf sel).
  eexists _, (renderEditor r.1 r.2).1. split; [reflexivity|].
  rewrite handleStateChange_state. unfold render_all, renderAll. simpl.
  split; [reflexivity|].
  destruct (removeNode_cascade index wf sel node Hn)
    as (Rn & _ & Rp & Rs & Rsel & Re & Rinv).
  fold r in Rn, Rp, Rs, Rsel, Re, Rinv. fold A in Rp, Rs, Rsel, Rinv.
  destruct (renderEditor_additions r.1 r.2) as (Hc & Pk & Sk & Pa & Sa).
  assert (edges (config r.1)
          = filter (fun e => edge_source e ≠ A ∧ edge_target e ≠ A)
                   (edges (config wf))) as Redges.
  { subst r A. unfold removeNode. by rewrite Hn. }
  assert (prompts r.1 = delete A (prompts wf)
          ∧ scripts r.1 = delete A (scripts wf)) as [Rpe Rse].
  { subst r A. unfold removeNode. by rewrite Hn. }
  assert (∀ v, prompts (renderEditor r.1 r.2).1 !! A = Some v →
            v = "" ∧ ∃ n, n ∈ nodes (config r.1) ∧ node_id n = A
                          ∧ node_type n = "llm") as HP.
  { intros v Hv. apply Pa in Hv as [Hv|(n & ? & ? & ? & ->)];
      [congruence | eauto]. }
  assert (∀ v, scripts (renderEditor r.1 r.2).1 !! A = Some v →
            v = default_script ∧ ∃ n, n ∈ nodes (config r.1) ∧ node_id n = A
                                      ∧ node_type n = "python") as HS.
  { intros v Hv. apply Sa in Hv as [Hv|(n & ? & ? & ? & ->)];
      [congruence | eauto]. }
  rewrite Hc. split_and!.
  - done.
  - done.
  - done.
  - done.
  - intros Hnot.
    assert (∀ n, n ∈ nodes (config r.1) → node_id n ≠ A) as Hno.
    { intros n Hin Hid. apply Hnot. unfold node_ids. rewrite Hc.
      change (map ?f ?l) with (f <$> l). apply list_elem_of_fmap. eauto. }
    split.
    + apply eq_None_not_Some. intros [v E].
      destruct (HP v E) as (_ & n & Hin & Hid & _). by destruct (Hno n Hin).
    + apply eq_None_not_Some. intros [v E].
      destruct (HS v E) as (_ & n & Hin & Hid & _). by destruct (Hno n Hin).
  - intros k v Hk Hv. apply Pk. rewrite Rpe. by rewrite lookup_delete_ne.
  - intros k v Hk Hv. apply Sk. rewrite Rse. by rewrite lookup_delete_ne.
  - intros Hsel. rewrite (Rsel Hsel). apply renderEditor_unselected.
  - done.
  - intros Hne Hinv. destruct (Rinv Hne Hinv) as [?|Hin]; [by left|right].
    unfold node_ids in *. by rewrite Hc.
Qed.

Lemma C2_delete_node_cascade_witness :
  ∃ w' wf', delete_node_click 1 (fresh_world wf_ab 0) = Done w'
    ∧ currentWorkflow (state w') = Some wf'
    ∧ nodes (config wf') = [mkNode "a" "llm" ""]
    ∧ edges (config wf') = []
    ∧ prompts wf' !! "b" = None
    ∧ entry_point (config wf') = "a".
Proof.
  destruct (C2_delete_node_cascade 1 (fresh_world wf_ab 0) wf_ab
              (mkNode "b" "join" "") eq_refl eq_refl)
    as (w' & wf' & H1 & H2 & H3 & H4 & _ & _ & H7 & _ & _ & _ & H11 & _).
  exists w', wf'. split_and!; [done | done | done | done | | done].
  apply H7. unfold node_ids. rewrite H3. simpl.
  intros Hin. apply list_elem_of_In in Hin. simpl in Hin.
  destruct Hin as [Hin|[]]. discriminate.
Defined.

(** ** Renaming a node and back, with the renders that follow *)

Lemma renderEditor_fix wf sel :
  texts_present wf →
  ((∀ n, n ∈ nodes (config wf) → editable n = false)
   ∨ (falsy sel = false
      ∧ ∃ n, n ∈ nodes (config wf) ∧ editable n = true
             ∧ Some (node_id n) = sel)) →
  renderEditor wf sel = (wf, sel).
Proof.
  intros Htp Hsel. unfold renderEditor.
  destruct (filter _ _) as [|m l] eqn:E; [done|].
  assert (∀ x, x ∈ m :: l ↔ editable x = true ∧ x ∈ nodes (config wf)) as Hsub.
  { intros x. rewrite <- E. by rewrite list_elem_of_filter. }
  rewrite foldl_ensure_text_fix.
  2: { apply Forall_forall. intros n Hn. apply Hsub in Hn as [_ Hn].
       by apply Htp. }
  simpl. f_equal; [by destruct wf|].
  destruct Hsel as [Hnone|(Hf & n & Hn & He & Hs)].
  - destruct (proj1 (Hsub m)) as [He Hm]; [by left|].
    rewrite (Hnone m Hm) in He. done.
  - rewrite Hf.
    assert (existsb (fun n => bool_decide (Some (node_id n) = sel)) (m :: l)
            = true) as Hex.
    { apply existsb_exists. exists n. split.
      - apply list_elem_of_In, Hsub. done.
      - by apply bool_decide_eq_true. }
    simpl in Hex. simpl. by rewrite Hex.
Qed.

Lemma renderEditor_fix_inv wf sel :
  renderEditor wf sel = (wf, sel) →
  texts_present wf
  ∧ ((∃ n, n ∈ nodes (config wf) ∧ editable n = true) →
     ∃ n, n ∈ nodes (config wf) ∧ editable n = true ∧ sel = Some (node_id n)).
Proof.
  intros H. destruct (renderEditor_settles wf sel) as (H1 & H2 & _).
  rewrite H in H1, H2. done.
Qed.

Lemma elem_of_insert_inv {A} (l : list A) (i : nat) (x z : A) :
  x ∈ <[i := z]> l → x = z ∨ ∃ j, j ≠ i ∧ l !! j = Some x.
Proof.
  intros [j Hj]%list_elem_of_lookup.
  destruct (decide (j = i)) as [->|Hne].
  - left. destruct (decide (i < length l)%nat) as [Hlt|Hge].
    + rewrite list_lookup_insert_eq in Hj by done. congruence.
    + rewrite list_insert_ge in Hj by lia.
      apply lookup_lt_Some in Hj. lia.
  - right. exists j. by rewrite list_lookup_insert_ne in Hj.
Qed.

Lemma node_ids_lookup wf j n :
  nodes (config wf) !! j = Some n → node_ids wf !! j = Some (node_id n).
Proof.
  intros H. unfold node_ids. change (map ?f ?l) with (f <$> l).
  by rewrite list_lookup_fmap, H.
Qed.

Lemma node_ids_elem wf n : n ∈ nodes (config wf) → node_id n ∈ node_ids wf.
Proof.
  intros H. unfold node_ids. change (map ?f ?l) with (f <$> l).
  apply list_elem_of_fmap. eauto.
Qed.

(** With distinct ids, a rename to an id that is new to the workflow
    leaves nothing for the render to repair. *)
Lemma renameNode_rendered index newId wf sel node :
  nodes (config wf) !! index = Some node →
  renderEditor wf sel = (wf, sel) →
  NoDup (node_ids wf) →
  "" ∉ node_ids wf → newId ≠ "" → newId ∉ node_ids wf →
  renderEditor (renameNode index newId wf sel).1 (renameNode index newId wf sel).2
  = renameNode index newId wf sel.
Proof.
  intros Hn Hr Hnd Hemp HnewE Hfresh.
  destruct (renderEditor_fix_inv wf sel Hr) as [Htp Hselok].
  assert (Hlt : (index < length (nodes (config wf)))%nat)
    by (by eapply lookup_lt_Some).
  assert (Hnode : node ∈ nodes (config wf))
    by (apply list_elem_of_lookup; eauto).
  assert (Hne : node_id node ≠ newId).
  { intros <-. by apply Hfresh, node_ids_elem. }
  assert (Hother : ∀ j n, j ≠ index → nodes (config wf) !! j = Some n →
            node_id n ≠ node_id node ∧ node_id n ≠ newId).
  { intros j n Hj Hjn. split.
    - intros Heq. apply Hj.
      apply (NoDup_lookup (node_ids wf) j index (node_id n)); [done| |].
      + by apply node_ids_lookup.
      + rewrite Heq. by apply node_ids_lookup.
    - intros <-. apply Hfresh, node_ids_elem, list_elem_of_lookup. eauto. }
  set (r := renameNode index newId wf sel).
  assert (Hr1 : nodes (config r.1)
                = <[index := set_node_id node newId]> (nodes (config wf))
              ∧ prompts r.1 = move_key (node_id node) newId (prompts wf)
              ∧ scripts r.1 = move_key (node_id node) newId (scripts wf)
              ∧ r.2 = if decide (sel = Some (node_id node))
                      then Some newId else sel).
  { subst r. unfold renameNode. by rewrite Hn. }
  destruct Hr1 as (Rn & Rp & Rs & Rsel).
  rewrite (surjective_pairing r) at 3. apply renderEditor_fix.
  - intros n Hin. rewrite Rn in Hin. rewrite Rp, Rs.
    apply elem_of_insert_inv in Hin as [->|(j & Hj & Hjn)].
    + simpl. destruct (Htp node Hnode) as [T1 T2].
      split; intros Ht.
      * destruct (T1 Ht) as [v Hv]. exists v. by apply move_key_new.
      * destruct (T2 Ht) as [v Hv]. exists v. by apply move_key_new.
    + destruct (Hother j n Hj Hjn) as [H1 H2].
      rewrite !move_key_other by done.
      apply Htp, list_elem_of_lookup. eauto.
  - assert ((∃ n, n ∈ nodes (config wf) ∧ editable n = true)
            ∨ (∀ n, n ∈ nodes (config wf) → editable n = false))
      as [Hex|Hnone].
    { destruct (filter (fun n => editable n = true) (nodes (config wf)))
        as [|m l] eqn:E.
      - right. intros n Hin. destruct (editable n) eqn:He; [|done].
        assert (n ∈ filter (fun n => editable n = true) (nodes (config wf)))
          as Hf by (by apply list_elem_of_filter).
        rewrite E in Hf. by apply elem_of_nil in Hf.
      - left. exists m.
        assert (m ∈ filter (fun n => editable n = true) (nodes (config wf)))
          as Hf by (rewrite E; by left).
        apply list_elem_of_filter in Hf. tauto. }
    + right. destruct (Hselok Hex) as (n & Hin & He & ->).
      assert (node_id n ≠ "") as Hnz.
      { intros Hz. apply Hemp. rewrite <- Hz. by apply node_ids_elem. }
      rewrite Rsel, Rn. case_decide as Hd.
      * split; [simpl; by rewrite bool_decide_false|].
        exists (set_node_id node newId). split_and!.
        -- by eapply elem_of_insert_new.
        -- apply list_elem_of_lookup in Hin as [j Hjn].
           destruct (decide (j = index)) as [->|Hj].
           ++ assert (n = node) as -> by congruence. done.
           ++ destruct (Hother j n Hj Hjn) as [H1 _]. congruence.
        -- done.
      * split; [simpl; by rewrite bool_decide_false|].
        exists n. split_and!; [|done..].
        eapply elem_of_insert_other; [done..|]. congruence.
    + left. intros n Hin. rewrite Rn in Hin.
      apply elem_of_insert_inv in Hin as [->|(j & Hj & Hjn)].
      * by apply (Hnone node).
      * apply Hnone, list_elem_of_lookup. eauto.
Qed.

(** Through the change handler of the node list, render and change
    notice included: in a workflow with distinct, non-empty node ids that
    the render has nothing to repair in, renaming a node to a non-empty id
    that nothing refers to (no node, no end of an edge, not the entry
    point, no key of [prompts] or [scripts], not the selection) and then
    renaming it back restores the workflow and the selection exactly.
    Neither the new id nor the id of the node is one of the names of
    [Object.prototype]. *)
Theorem rename_there_and_back index newId w wf sel node :
  state w = mkState (Some wf) sel →
  nodes (config wf) !! index = Some node →
  renderEditor wf sel = (wf, sel) →
  NoDup (node_ids wf) →
  "" ∉ node_ids wf → newId ≠ "" → newId ∉ node_ids wf →
  ¬ inherited_key newId → ¬ inherited_key (node_id node) →
  Forall (fun e => edge_source e ≠ newId ∧ edge_target e ≠ newId)
         (edges (config wf)) →
  entry_point (config wf) ≠ newId →
  prompts wf !! newId = None →
  scripts wf !! newId = None →
  sel ≠ Some newId →
  ∃ w1 w2, nodes_list_change NodeIdInput index newId w = Done w1
    ∧ state w1 = mkState (Some (renameNode index newId wf sel).1)
                         (renameNode index newId wf sel).2
    ∧ nodes_list_change NodeIdInput index (node_id node) w1 = Done w2
    ∧ state w2 = state w.
Proof.
  intros Hst Hn Hr Hnd Hemp HnewE Hfresh _ _ Hedges Hentry Hp Hs Hsel.
  assert (Hne : newId ≠ node_id node).
  { intros ->. by apply Hfresh, node_ids_elem, list_elem_of_lookup; eauto. }
  pose proof (renameNode_rendered index newId wf sel node
                Hn Hr Hnd Hemp HnewE Hfresh) as Hr1.
  pose proof (renameNode_there_and_back index newId wf sel node
                Hn Hne Hedges Hentry Hp Hs Hsel) as Hback.
  set (r := renameNode index newId wf sel) in *.
  assert (Hn1 : nodes (config r.1) !! index = Some (set_node_id node newId)).
  { subst r. unfold renameNode. rewrite Hn. simpl.
    apply list_lookup_insert_eq. by eapply lookup_lt_Some. }
  set (w1 := handleStateChange
               (render_all (set_state (mkState (Some r.1) r.2) w))).
  assert (Hst1 : state w1 = mkState (Some r.1) r.2).
  { subst w1. rewrite handleStateChange_state.
    unfold render_all, renderAll. simpl. by rewrite Hr1. }
  exists w1. eexists. split_and!.
  - unfold nodes_list_change. rewrite Hst. simpl. rewrite Hn. reflexivity.
  - done.
  - unfold nodes_list_change. rewrite Hst1. simpl. rewrite Hn1. reflexivity.
  - rewrite handleStateChange_state. unfold render_all, renderAll. simpl.
    fold r. rewrite Hback. simpl. by rewrite Hr, Hst.
Qed.

Lemma rename_there_and_back_witness :
  ∃ w1 w2,
    nodes_list_change NodeIdInput 0 "start"
      (set_state (mkState (Some wf_ab) (Some "a")) (fresh_world wf_ab 0))
    = Done w1
    ∧ selectedPrompt (state w1) = Some "start"
    ∧ nodes_list_change NodeIdInput 0 "a" w1 = Done w2
    ∧ state w2 = mkState (Some wf_ab) (Some "a").
Proof.
  destruct (rename_there_and_back 0 "start"
              (set_state (mkState (Some wf_ab) (Some "a")) (fresh_world wf_ab 0))
              wf_ab (Some "a") (mkNode "a" "llm" ""))
    as (w1 & w2 & H1 & H2 & H3 & H4).
  - reflexivity.
  - reflexivity.
  - apply renderEditor_fix.
    + intros n Hin. apply list_elem_of_In in Hin. simpl in Hin.
      destruct Hin as [<-|[<-|[]]]; simpl.
      * split; [intros _; by eexists | discriminate].
      * split; discriminate.
    + right. split; [reflexivity|]. exists (mkNode "a" "llm" "").
      split_and!; [|reflexivity..]. apply list_elem_of_In. simpl. tauto.
  - apply (bool_decide_unpack _). reflexivity.
  - intros Hin. apply list_elem_of_In in Hin. simpl in Hin.
    destruct Hin as [?|[?|[]]]; discriminate.
  - discriminate.
  - intros Hin. apply list_elem_of_In in Hin. simpl in Hin.
    destruct Hin as [?|[?|[]]]; discriminate.
  - intros Hin. apply list_elem_of_In in Hin. simpl in Hin. 
    repeat (destruct Hin as [Hin|Hin]; [discriminate|]). done.
  - intros Hin. apply list_elem_of_In in Hin. simpl in Hin.
    repeat (destruct Hin as [Hin|Hin]; [discriminate|]). done.
  - constructor; [|constructor]. split; discriminate.
  - discriminate.
  - reflexivity.
  - reflexivity.
  - discriminate.
  - exists w1, w2. split_and!; [done | by rewrite H2 | done | done].
Defined.
